(** * Web security auditor ([security_audit.py]): model and properties

    The auditor is a sequential script: it asks for a URL, issues HTTP
    requests with [requests.get], matches regular expressions against the
    page text and prints what it finds.  The model below keeps that shape:

    - Python text is a list of Unicode code points; the character tables
      of [str.lower], [str.strip], [\s], [\w] and [re.IGNORECASE] are
      written out where they are fixed (white space, the characters up to
      U+00FF, the characters that fold to a letter of a pattern) and left to
      the Unicode database of the running Python above U+00FF;
    - [re.findall] and [re.search] are a backtracking matcher over the
      pattern syntax the script uses, with Python's priorities (ordered
      alternation, greedy and lazy repetition, leftmost match);
    - the script's effects are a small monad: a computation starts from
      the requests issued so far and yields a value or an exception, the
      requests issued and the lines it printed; an exception propagates
      until a handler catches it;
    - what lies outside the script (the network behind [requests.get],
      [urlparse], [urljoin], the iteration order of a [set]) is a record of
      functions, the [Platform]. *)

From Stdlib Require Import Ascii String Bool Arith NArith Lia PeanoNat List.
Import ListNotations.
Local Open Scope list_scope.

Set Implicit Arguments.

(** ** Text *)

Module Text.

(** a character is its Unicode code point *)
Definition char : Type := N.

Definition str : Type := list char.

(** a character of a literal of the script *)
Definition ch (a : ascii) : char := N_of_ascii a.

Definition txt (s : string) : str := map ch (list_ascii_of_string s).

Definition in_range (lo hi : N) (c : char) : bool :=
  (lo <=? c)%N && (c <=? hi)%N.

Definition is_upper_az (c : char) : bool := in_range 65 90 c.
Definition is_lower_az (c : char) : bool := in_range 97 122 c.
Definition is_digit (c : char) : bool := in_range 48 57 c.

(** [str.lower] on a character up to U+00FF: A-Z, and the capitals
    U+00C0..U+00DE except the multiplication sign U+00D7. *)
Definition lower_char (c : char) : char :=
  if is_upper_az c || (in_range 192 222 c && negb (c =? 215)%N)
  then (c + 32)%N else c.

(** What the Unicode database of the running Python says of the
    characters above U+00FF. *)
Class Unicode : Type := {
  (** [str.lower] at such a character, given the text before it and the
      text after it (they decide for a capital sigma) *)
  wide_lower : str -> char -> str -> str;
  (** [str.isalnum] of such a character *)
  wide_alnum : char -> bool
}.

(** [str.lower] at one character of a text.  Two characters above U+00FF
    have an ASCII letter in their lower case: the capital I with a dot,
    U+0130, becomes i and a combining dot, and the Kelvin sign, U+212A,
    becomes k. *)
Definition lower_at {U : Unicode} (before : str) (c : char) (after : str)
    : str :=
  if (c <=? 255)%N then [lower_char c]
  else if (c =? 304)%N then [105; 775]%N
  else if (c =? 8490)%N then [107]%N
  else wide_lower before c after.

Fixpoint lower_from {U : Unicode} (before s : str) : str :=
  match s with
  | [] => []
  | c :: after => lower_at before c after ++ lower_from (before ++ [c]) after
  end.

(** [s.lower()] *)
Definition lower {U : Unicode} (s : str) : str := lower_from [] s.

(** [str.isspace], which is also the class [\s] of a [str] pattern:
    U+0009..U+000D, U+001C..U+0020, U+0085, U+00A0, U+1680,
    U+2000..U+200A, U+2028, U+2029, U+202F, U+205F, U+3000. *)
Definition is_space (c : char) : bool :=
  in_range 9 13 c || in_range 28 32 c || (c =? 133)%N || (c =? 160)%N
  || (c =? 5760)%N || in_range 8192 8202 c || in_range 8232 8233 c
  || (c =? 8239)%N || (c =? 8287)%N || (c =? 12288)%N.

(** The class [\w] of a [str] pattern, alphanumeric or underscore, up to
    U+00FF. *)
Definition is_word_latin (c : char) : bool :=
  is_digit c || is_upper_az c || is_lower_az c || (c =? 95)%N
  || (c =? 170)%N || (c =? 178)%N || (c =? 179)%N || (c =? 181)%N
  || (c =? 185)%N || (c =? 186)%N || in_range 188 190 c
  || in_range 192 214 c || in_range 216 246 c || in_range 248 255 c.

(** The class [\w] of a [str] pattern. *)
Definition is_word {U : Unicode} (c : char) : bool :=
  if (c <=? 255)%N then is_word_latin c else wide_alnum c.

Definition eqc (a b : char) : bool := (a =? b)%N.

Fixpoint eqs (a b : str) : bool :=
  match a, b with
  | [], [] => true
  | x :: a', y :: b' => eqc x y && eqs a' b'
  | _, _ => false
  end.

(** [s.startswith(p)] *)
Fixpoint startswith (p s : str) : bool :=
  match p with
  | [] => true
  | x :: p' => match s with
               | y :: s' => eqc x y && startswith p' s'
               | [] => false
               end
  end.

(** [p in s] for strings *)
Fixpoint contains (p s : str) : bool :=
  startswith p s || match s with
                    | [] => false
                    | _ :: s' => contains p s'
                    end.

Fixpoint lstrip (s : str) : str :=
  match s with
  | c :: s' => if is_space c then lstrip s' else s
  | [] => []
  end.

Definition rstrip (s : str) : str := rev (lstrip (rev s)).

(** [s.strip()] *)
Definition strip (s : str) : str := rstrip (lstrip s).

(** [s[:n]] *)
Definition slice_to (n : nat) (s : str) : str := firstn n s.

End Text.
Export Text.

(** ** Regular expressions *)

Module Re.

(** The pattern syntax of the script.  Every repetition in its patterns is
    over one character class (any character, a negated set, [\s], a
    set of letters), so [Rep g n p] is [p{n,}]: greedy when [g] holds,
    lazy otherwise.  [Bnd w] is [\b] for the word characters [w]. *)
Inductive regex : Type :=
| Eps : regex
| Cls : (char -> bool) -> regex
| Seq : regex -> regex -> regex
| Alt : regex -> regex -> regex
| Rep : bool -> nat -> (char -> bool) -> regex
| Grp : nat -> regex -> regex
| Bnd : (char -> bool) -> regex.

(** A position of the matcher: the character before it, the text after it
    and the groups captured so far. *)
Record mstate : Type := MState {
  m_prev : option char;
  m_rest : str;
  m_caps : list (nat * str)
}.

Definition word_before (w : char -> bool) (st : mstate) : bool :=
  match m_prev st with Some c => w c | None => false end.

Definition word_after (w : char -> bool) (st : mstate) : bool :=
  match m_rest st with c :: _ => w c | [] => false end.

Definition at_boundary (w : char -> bool) (st : mstate) : bool :=
  xorb (word_before w st) (word_after w st).

Definition set_cap (i : nat) (t : str) (st : mstate) : mstate :=
  MState (m_prev st) (m_rest st) ((i, t) :: m_caps st).

Definition orelse {A} (x y : option A) : option A :=
  match x with Some _ => x | None => y end.

(** [p{n,}] at [s]: the mandatory [n] characters first; then a greedy
    repetition takes one more character before it tries the continuation,
    a lazy one tries the continuation before it takes one more. *)
Fixpoint rep (g : bool) (n : nat) (p : char -> bool) (caps : list (nat * str))
    (prev : option char) (s : str) (k : mstate -> option mstate)
    {struct s} : option mstate :=
  let more :=
    match s with
    | c :: t => if p c then rep g (pred n) p caps (Some c) t k else None
    | [] => None
    end in
  match n with
  | S _ => more
  | O => if g then orelse more (k (MState prev s caps))
         else orelse (k (MState prev s caps)) more
  end.

(** Backtracking matcher in continuation-passing style: [rmatch r st k]
    is the first way, in Python's order of preference, to match [r] at
    [st] such that [k] accepts the position reached. *)
Fixpoint rmatch (r : regex) (st : mstate) (k : mstate -> option mstate)
    : option mstate :=
  match r with
  | Eps => k st
  | Cls p =>
      match m_rest st with
      | c :: t => if p c then k (MState (Some c) t (m_caps st)) else None
      | [] => None
      end
  | Seq a b => rmatch a st (fun st' => rmatch b st' k)
  | Alt a b => orelse (rmatch a st k) (rmatch b st k)
  | Rep g n p => rep g n p (m_caps st) (m_prev st) (m_rest st) k
  | Grp i a =>
      rmatch a st (fun st' =>
        k (set_cap i (firstn (length (m_rest st) - length (m_rest st'))
                             (m_rest st)) st'))
  | Bnd w => if at_boundary w st then k st else None
  end.

(** One match: the matched text and the captured groups. *)
Record rmatch_result : Type := Match {
  whole : str;
  groups : list (nat * str)
}.

(** [m.group(i)]; a group that took no part in the match reads as the
    empty string, as in the lists [re.findall] returns. *)
Fixpoint group_in (i : nat) (caps : list (nat * str)) : str :=
  match caps with
  | (j, t) :: caps' => if i =? j then t else group_in i caps'
  | [] => []
  end.

Definition group (i : nat) (m : rmatch_result) : str := group_in i (groups m).

Definition match_at (r : regex) (prev : option char) (s : str)
    : option rmatch_result :=
  match rmatch r (MState prev s []) Some with
  | Some st => Some (Match (firstn (length s - length (m_rest st)) s) (m_caps st))
  | None => None
  end.

(** [re.search]: the match at the leftmost position that has one. *)
Fixpoint search_from (r : regex) (prev : option char) (s : str)
    : option rmatch_result :=
  match match_at r prev s with
  | Some m => Some m
  | None => match s with
            | c :: t => search_from r (Some c) t
            | [] => None
            end
  end.

Definition search (r : regex) (s : str) : option rmatch_result :=
  search_from r None s.

(** The scan behind [re.findall]: successive non-overlapping matches, left
    to right.  [skip] counts the characters of the last match still to be
    passed over.  (After an empty match the scan moves on by one
    character; every pattern of the script consumes at least one.) *)
Fixpoint scan (r : regex) (prev : option char) (s : str) (skip : nat)
    : list rmatch_result :=
  match skip with
  | S n => match s with
           | c :: t => scan r (Some c) t n
           | [] => []
           end
  | O => match match_at r prev s with
         | Some m => m :: match s with
                          | c :: t => scan r (Some c) t (pred (length (whole m)))
                          | [] => []
                          end
         | None => match s with
                   | c :: t => scan r (Some c) t 0
                   | [] => []
                   end
         end
  end.

Definition finditer (r : regex) (s : str) : list rmatch_result := scan r None s 0.

(** [re.findall] for a pattern with one group and with two groups. *)
Definition findall1 (r : regex) (s : str) : list str :=
  map (group 1) (finditer r s).

Definition findall2 (r : regex) (s : str) : list (str * str) :=
  map (fun m => (group 1 m, group 2 m)) (finditer r s).

(** [re.findall] for a pattern without groups. *)
Definition findall0 (r : regex) (s : str) : list str :=
  map whole (finditer r s).

(** *** Pattern notation *)

Definition any : char -> bool := fun _ => true.

(** a literal character *)
Definition chr (x : ascii) : char -> bool := fun c => eqc c (ch x).

(** The characters above U+00FF that [re.IGNORECASE] takes for a
    character up to U+00FF, given in lower case: the capital I with a dot
    and the dotless i for i, the Kelvin sign for k, the long s for s, the
    Greek mu in both cases for the micro sign, the capital sharp s, the
    Angstrom sign, the capital y with a diaeresis. *)
Definition folded (l : char) : list char :=
  if (l =? 105)%N then [304; 305]%N
  else if (l =? 107)%N then [8490]%N
  else if (l =? 115)%N then [383]%N
  else if (l =? 181)%N then [924; 956]%N
  else if (l =? 223)%N then [7838]%N
  else if (l =? 229)%N then [8491]%N
  else if (l =? 255)%N then [376]%N
  else [].

(** a literal character under [re.IGNORECASE] *)
Definition chr_i (x : ascii) : char -> bool :=
  fun c => ((c <=? 255)%N && eqc (lower_char c) (lower_char (ch x)))
           || existsb (eqc c) (folded (lower_char (ch x))).

Definition one_of (xs : str) : char -> bool :=
  fun c => existsb (eqc c) xs.
Definition none_of (xs : str) : char -> bool :=
  fun c => negb (existsb (eqc c) xs).
Definition either (p q : char -> bool) : char -> bool :=
  fun c => p c || q c.

Fixpoint lit (s : string) : regex :=
  match s with
  | EmptyString => Eps
  | String c EmptyString => Cls (chr c)
  | String c s' => Seq (Cls (chr c)) (lit s')
  end.

Fixpoint lit_i (s : string) : regex :=
  match s with
  | EmptyString => Eps
  | String c EmptyString => Cls (chr_i c)
  | String c s' => Seq (Cls (chr_i c)) (lit_i s')
  end.

(** [r?] *)
Definition opt (r : regex) : regex := Alt r Eps.

Fixpoint seqs (rs : list regex) : regex :=
  match rs with
  | [] => Eps
  | [r] => r
  | r :: rs' => Seq r (seqs rs')
  end.

End Re.
Export Re.

(** ** The patterns of the script *)

Module Patterns.

Definition dquote : char := 34%N.
Definition squote : char := 39%N.

(** the class of a double or single quote, and its complement *)
Definition quote : char -> bool := one_of [dquote; squote].
Definition not_quote : char -> bool := none_of [dquote; squote].
Definition not_gt : char -> bool := none_of (txt ">").

(** [<!--(.*?)-->] with [re.DOTALL] *)
Definition comment_re : regex :=
  seqs [lit "<!--"; Grp 1 (Rep false 0 any); lit "-->"].

(** [<script[^>]*>(.*?)</script>] with [re.DOTALL] *)
Definition inline_script_re : regex :=
  seqs [lit "<script"; Rep true 0 not_gt; Cls (chr ">");
        Grp 1 (Rep false 0 any); lit "</script>"].

(** [<script[^>]*src=Q([^Q]+)Q], [Q] the class of both quotes *)
Definition external_script_re : regex :=
  seqs [lit "<script"; Rep true 0 not_gt; lit "src=";
        Cls quote; Grp 1 (Rep true 1 not_quote); Cls quote].

(** [<form[^>]*>(.*?)</form>] with [re.DOTALL | re.IGNORECASE] *)
Definition form_re : regex :=
  seqs [lit_i "<form"; Rep true 0 not_gt; Cls (chr ">");
        Grp 1 (Rep false 0 any); lit_i "</form>"].

(** [action=Q([^Q]+)Q] with [re.IGNORECASE] *)
Definition action_re : regex :=
  seqs [lit_i "action="; Cls quote; Grp 1 (Rep true 1 not_quote);
        Cls quote].

Definition email_local : char -> bool :=
  either is_upper_az (either is_lower_az (either is_digit (one_of (txt "._%+-")))).
Definition email_domain : char -> bool :=
  either is_upper_az (either is_lower_az (either is_digit (one_of (txt ".-")))).
(** the class [[A-Z|a-z]]: the bar is a member *)
Definition email_tld : char -> bool :=
  either is_upper_az (either (chr "|") is_lower_az).

(** [\b[A-Za-z0-9._%+-]+@[A-Za-z0-9.-]+\.[A-Z|a-z]{2,}\b] *)
Definition email_re {U : Unicode} : regex :=
  seqs [Bnd is_word; Rep true 1 email_local; Cls (chr "@");
        Rep true 1 email_domain; Cls (chr "."); Rep true 2 email_tld;
        Bnd is_word].

(** [api[_-]?key|token|secret|password] *)
Definition secret_key_re : regex :=
  Alt (seqs [lit_i "api"; opt (Cls (one_of (txt "_-"))); lit_i "key"])
 (Alt (lit_i "token")
 (Alt (lit_i "secret")
      (lit_i "password"))).

(** [(api[_-]?key|token|secret|password)Q?\s*[:=]\s*Q([^Q]{20,})Q]
    with [re.IGNORECASE] *)
Definition secret_re : regex :=
  seqs [Grp 1 secret_key_re; opt (Cls quote); Rep true 0 is_space;
        Cls (one_of (txt ":=")); Rep true 0 is_space; Cls quote;
        Grp 2 (Rep true 20 not_quote); Cls quote].

(** [version Q?\s*[:=]\s*Q?([0-9]+\.[0-9]+\.[0-9]+)] with [re.IGNORECASE] *)
Definition version_re : regex :=
  seqs [lit_i "version"; opt (Cls quote); Rep true 0 is_space;
        Cls (one_of (txt ":=")); Rep true 0 is_space; opt (Cls quote);
        Grp 1 (seqs [Rep true 1 is_digit; Cls (chr "."); Rep true 1 is_digit;
                     Cls (chr "."); Rep true 1 is_digit])].

End Patterns.
Export Patterns.

(** ** What lies outside the script *)

Module World.

(** The exceptions the script can meet.  [requests.get] raises the first
    four ([SSLError] is caught by name in [check_ssl_tls]); [urlparse]
    raises [ValueError] on a malformed bracketed host; [KeyboardInterrupt]
    is not an [Exception], only a bare [except:] catches it. *)
Inductive exn_kind : Type :=
| SSLError | ConnectionError | Timeout | TooManyRedirects
| ValueError | OtherException | KeyboardInterrupt.

Record exn : Type := Exn { kind : exn_kind; message : str }.

Record Response : Type := {
  status_code : nat;
  headers : list (str * str);
  text : str
}.

Record Request : Type := {
  req_url : str;
  req_timeout : nat;
  req_allow_redirects : bool
}.

Record ParseResult : Type := { scheme : str; netloc : str }.

Record Platform : Type := {
  (** [requests.get]: the outcome of a request, given the requests issued
      before it *)
  net : list Request -> Request -> exn + Response;
  (** [urllib.parse.urlparse] *)
  urlparse : str -> exn + ParseResult;
  (** [urllib.parse.urljoin], which parses its arguments as [urlparse]
      does and raises as it does *)
  urljoin : str -> str -> exn + str;
  (** the order in which [set(xs)] is iterated: Python leaves it to the
      hash of the strings, which is seeded per process *)
  set_iter : list str -> list str
}.

(** What Python guarantees of [set(xs)]: its elements are those of [xs],
    each once. *)
Definition set_iter_ok (f : list str -> list str) : Prop :=
  forall xs, NoDup (f xs) /\ (forall x, In x (f xs) <-> In x xs).

(** [bool(response)] is [response.ok]: false exactly when
    [raise_for_status] would raise, that is for 4xx and 5xx. *)
Definition ok (r : Response) : bool :=
  negb ((400 <=? status_code r) && (status_code r <? 600)).

(** [not response] for the value [check_security_headers] returns *)
Definition falsy (r : option Response) : bool :=
  match r with
  | None => true
  | Some r => negb (ok r)
  end.

(** [name in headers] and [headers[name]] on the case-insensitive
    dictionary of a response *)
Definition header_get {U : Unicode} (name : str) (hs : list (str * str))
    : option str :=
  match find (fun kv => eqs (lower (fst kv)) (lower name)) hs with
  | Some kv => Some (snd kv)
  | None => None
  end.

Definition header_in {U : Unicode} (name : str) (hs : list (str * str))
    : bool :=
  match header_get name hs with Some _ => true | None => false end.

End World.
Export World.

(** ** What the script prints *)

Module Output.

Inductive section_title : Type :=
| TitleHeaders      (* SECURITY HEADERS ANALYSIS *)
| TitleFiles        (* EXPOSED FILES CHECK *)
| TitleHtml         (* HTML CONTENT ANALYSIS *)
| TitleTls          (* SSL/TLS ANALYSIS *)
| TitleDisclosure   (* INFORMATION DISCLOSURE *)
| TitleRecommend    (* SECURITY RECOMMENDATIONS *)
| TitleComplete.    (* SECURITY AUDIT COMPLETE *)

(** One constructor for each [print] of the script, with the values its
    format string interpolates. *)
Inductive Line : Type :=
| LRuleNl                                   (* a blank line and sixty = *)
| LRule                                     (* sixty = *)
| LTitle (t : section_title)
(* check_security_headers *)
| LPresentHeading                           (* Present Headers: *)
| LPresent (header value50 : str)           (* (check mark) header: value[:50]... *)
| LMissingHeading                           (* (warning sign) Missing Headers: *)
| LMissing (header description : str)       (* (ballot x) header - description *)
| LCookieHeading                            (* Cookie Settings: *)
| LCookie (cookie100 : str)                 (* cookie[:100]... *)
| LCookieNoSecure                           (* (warning sign) Missing 'Secure' flag *)
| LCookieNoHttpOnly                         (* (warning sign) Missing 'HttpOnly' flag *)
| LCookieNoSameSite                         (* (warning sign) Missing 'SameSite' attribute *)
| LFetchError (e : exn)                     (* (cross mark) Error: e *)
(* check_common_files *)
| LExposedHeading                           (* (warning sign) Potentially Exposed Files: *)
| LExposed (file : str) (status : nat)      (* (warning sign) EXPOSED: file (Status: status) *)
| LNoneExposed                              (* No common sensitive files exposed *)
| LSummary (safe total : nat)               (* Summary: safe/total files properly protected *)
(* analyze_html_content *)
| LCommentsFound (n : nat)                  (* Found n HTML comments: *)
| LCommentSensitive (i : nat) (cleaned : str) (* (warning sign) Comment i contains sensitive keywords: cleaned *)
| LCommentPlain (i : nat) (cleaned : str)   (* (info sign) Comment i: cleaned *)
| LInlineScripts (n : nat)                  (* Inline Scripts: n found *)
| LManyInlineScripts                        (* (warning sign) Many inline scripts - Consider using CSP *)
| LExternalHeading (n : nat)                (* External Scripts (n): *)
| LExternal (domain script60 : str)         (* - domain: script[:60] *)
| LFormsFound (n : nat)                     (* Forms Found: n *)
| LFormNoCsrf (i : nat)                     (* (warning sign) Form i: No CSRF token detected *)
| LFormAction (i : nat) (action : str)      (* -> Action: action   (i, the form at hand, is not printed) *)
| LEmailsHeading (n : nat)                  (* Email Addresses Exposed: n *)
| LEmail (email : str)                      (* - email *)
| LSecretsHeading                           (* (warning sign) CRITICAL: Potential API keys/secrets in HTML: *)
| LSecret (key_type value20 : str)          (* - key_type: key_value[:20]... *)
(* check_ssl_tls *)
| LHttpWarning                              (* (warning sign) WARNING: Site uses HTTP (not HTTPS) *)
| LHttpRecommend                            (* Recommendation: Enable HTTPS immediately *)
| LHttpsOk                                  (* Site uses HTTPS *)
| LCertValid                                (* SSL certificate valid *)
| LSslError (e : exn)                       (* (cross mark) SSL Error: e *)
(* check_information_disclosure *)
| LServer (value : str)                     (* Server: value *)
| LServerWarn                               (* (warning sign) Server version exposed - consider hiding *)
| LPoweredBy (value : str)                  (* X-Powered-By: value *)
| LPoweredByWarn                            (* (warning sign) Technology stack exposed - consider removing *)
| LVersions (versions : list str)           (* (warning sign) Version numbers found in HTML: set *)
(* generate_recommendations *)
| LRecommendation (rec : str)
(* main *)
| LPrompt                                   (* Enter URL to audit ... *)
| LStarting (url : str)                     (* Starting Security Audit for: url *)
| LTime                                     (* Time: the default request headers *)
| LDisclaimer1                              (* (warning sign) DISCLAIMER: This is a basic automated scan. *)
| LDisclaimer2.                             (* For comprehensive security, hire ... *)

End Output.
Export Output.

(** ** Effects: requests issued, lines printed, exceptions *)

Module Eff.

Inductive result (A : Type) : Type :=
| Done : A -> result A
| Raised : exn -> result A.
Arguments Raised {A} _.

Record outcome (A : Type) : Type := Outcome {
  res : result A;
  calls : list Request;     (* the requests issued so far, oldest first *)
  out : list Line           (* the lines printed by this computation *)
}.

(** A computation starts from the requests issued so far. *)
Definition M (A : Type) : Type := list Request -> outcome A.

Definition ret {A} (a : A) : M A := fun cs => Outcome (Done a) cs [].

Definition raise {A} (e : exn) : M A := fun cs => Outcome (Raised e) cs [].

Definition bind {A B} (m : M A) (f : A -> M B) : M B :=
  fun cs =>
    let o := m cs in
    match res o with
    | Done a => let o' := f a (calls o) in
                Outcome (res o') (calls o') (out o ++ out o')
    | Raised e => Outcome (Raised e) (calls o) (out o)
    end.

Definition print (l : Line) : M unit := fun cs => Outcome (Done tt) cs [l].

(** [try: m  except <those e with h e = Some _>: h e] *)
Definition try_except {A} (m : M A) (h : exn -> option (M A)) : M A :=
  fun cs =>
    let o := m cs in
    match res o with
    | Done a => o
    | Raised e =>
        match h e with
        | Some m' => let o' := m' (calls o) in
                     Outcome (res o') (calls o') (out o ++ out o')
        | None => o
        end
    end.

Definition lift {A} (x : exn + A) : M A :=
  match x with
  | inl e => raise e
  | inr a => ret a
  end.

Definition when (b : bool) (m : M unit) : M unit := if b then m else ret tt.

End Eff.
Export Eff.

Declare Scope eff_scope.
Delimit Scope eff_scope with eff.
Notation "x <- m ;; f" := (bind m (fun x => f))
  (at level 61, m at next level, right associativity) : eff_scope.
Notation "m ;; f" := (bind m (fun _ => f))
  (at level 61, right associativity) : eff_scope.
Open Scope eff_scope.

Module Loops.

(** [for x in xs: body x] *)
Fixpoint for_each {X} (xs : list X) (body : X -> M unit) : M unit :=
  match xs with
  | [] => ret tt
  | x :: xs' => body x ;; for_each xs' body
  end.

(** a [for] loop that updates local variables [acc] *)
Fixpoint for_fold {X S} (xs : list X) (acc : S) (body : S -> X -> M S) : M S :=
  match xs with
  | [] => ret acc
  | x :: xs' => acc' <- body acc x ;; for_fold xs' acc' body
  end.

(** [enumerate(xs, start)] *)
Fixpoint enumerate {X} (start : nat) (xs : list X) : list (nat * X) :=
  match xs with
  | [] => []
  | x :: xs' => (start, x) :: enumerate (S start) xs'
  end.

Definition nonempty {X} (xs : list X) : bool :=
  match xs with [] => false | _ :: _ => true end.

End Loops.
Export Loops.

(** ** The script *)

Module Script.

Section WithPlatform.

Context {U : Unicode}.
Variable P : Platform.

(** [requests.get(url, timeout=t, allow_redirects=a)] *)
Definition requests_get (url : str) (t : nat) (a : bool) : M Response :=
  fun cs =>
    let rq := Build_Request url t a in
    match net P cs rq with
    | inl e => Outcome (Raised e) (cs ++ [rq]) []
    | inr r => Outcome (Done r) (cs ++ [rq]) []
    end.

(** the three [print]s that open every section *)
Definition banner (t : section_title) : M unit :=
  print LRuleNl ;; print (LTitle t) ;; print LRule.

(** handlers: [except Exception], a bare [except:], and
    [except requests.exceptions.SSLError] *)
Definition is_exception (e : exn) : bool :=
  match kind e with KeyboardInterrupt => false | _ => true end.

Definition is_ssl_error (e : exn) : bool :=
  match kind e with SSLError => true | _ => false end.

(** *** check_security_headers (lines 11-66) *)

Definition security_headers : list (str * str) :=
  [ (txt "Strict-Transport-Security", txt "HSTS - Forces HTTPS");
    (txt "X-Frame-Options", txt "Prevents clickjacking");
    (txt "X-Content-Type-Options", txt "Prevents MIME sniffing");
    (txt "Content-Security-Policy", txt "Prevents XSS attacks");
    (txt "X-XSS-Protection", txt "XSS filter (legacy)");
    (txt "Referrer-Policy", txt "Controls referrer information");
    (txt "Permissions-Policy", txt "Controls browser features") ].

(** the loop that fills [present] and [missing] *)
Fixpoint sort_headers (table : list (str * str)) (hs : list (str * str))
    : list Line * list Line :=
  match table with
  | [] => ([], [])
  | (header, description) :: table' =>
      let '(present, missing) := sort_headers table' hs in
      match header_get header hs with
      | Some v => (LPresent header (slice_to 50 v) :: present, missing)
      | None => (present, LMissing header description :: missing)
      end
  end.

Definition check_cookie (hs : list (str * str)) : M unit :=
  match header_get (txt "Set-Cookie") hs with
  | Some cookie =>
      print LCookieHeading ;;
      print (LCookie (slice_to 100 cookie)) ;;
      when (negb (contains (txt "Secure") cookie)) (print LCookieNoSecure) ;;
      when (negb (contains (txt "HttpOnly") cookie)) (print LCookieNoHttpOnly) ;;
      when (negb (contains (txt "SameSite") cookie)) (print LCookieNoSameSite)
  | None => ret tt
  end.

Definition check_security_headers (url : str) : M (option Response) :=
  banner TitleHeaders ;;
  try_except
    (response <- requests_get url 10 true ;;
     let hs := headers response in
     let '(present, missing) := sort_headers security_headers hs in
     when (nonempty present)
          (print LPresentHeading ;; for_each present print) ;;
     when (nonempty missing)
          (print LMissingHeading ;; for_each missing print) ;;
     check_cookie hs ;;
     ret (Some response))
    (fun e => if is_exception e
              then Some (print (LFetchError e) ;; ret None)
              else None).

(** *** check_common_files (lines 68-119) *)

Definition common_files : list str :=
  map txt
    [ ".git/config"; ".env"; ".env.local"; ".env.production"; "config.php";
      "wp-config.php"; ".htaccess"; "phpinfo.php"; "admin"; "administrator";
      "wp-admin"; "phpmyadmin"; "backup.zip"; "backup.sql"; "database.sql";
      "robots.txt"; "sitemap.xml"; ".DS_Store"; "package.json";
      "composer.json"; ".git/HEAD" ]%string.

(** one turn of the probing loop on the locals [(exposed, safe)] *)
Definition probe_file (base_url : str) (st : list Line * nat) (file : str)
    : M (list Line * nat) :=
  let '(exposed, safe) := st in
  url <- lift (urljoin P base_url file) ;;
  try_except
    (response <- requests_get url 5 false ;;
     if status_code response =? 200
     then ret (exposed ++ [LExposed file (status_code response)], safe)
     else ret (exposed, safe + 1))
    (fun _ => Some (ret (exposed, safe + 1))).

Definition probe_files (base_url : str) (files : list str)
    : M (list Line * nat) :=
  for_fold files ([], 0) (probe_file base_url).

(** the function, over any list of paths *)
Definition check_files (files : list str) (base_url : str) : M unit :=
  banner TitleFiles ;;
  st <- probe_files base_url files ;;
  let '(exposed, safe) := st in
  (if nonempty exposed
   then print LExposedHeading ;; for_each exposed print
   else print LNoneExposed) ;;
  print (LSummary safe (length files)).

Definition check_common_files (base_url : str) : M unit :=
  check_files common_files base_url.

(** *** analyze_html_content (lines 121-181) *)

Definition sensitive_keywords : list str :=
  map txt ["password"; "key"; "secret"; "token"; "api"]%string.

Definition has_keyword (cleaned : str) : bool :=
  existsb (fun keyword => contains keyword (lower cleaned)) sensitive_keywords.

Definition clean (comment : str) : str := slice_to 100 (strip comment).

Definition report_comment (ic : nat * str) : M unit :=
  let '(i, comment) := ic in
  let cleaned := clean comment in
  if has_keyword cleaned
  then print (LCommentSensitive i cleaned)
  else print (LCommentPlain i cleaned).

Definition check_comments (html : str) : M unit :=
  let comments := findall1 comment_re html in
  when (nonempty comments)
       (print (LCommentsFound (length comments)) ;;
        for_each (enumerate 1 (firstn 5 comments)) report_comment).

Definition check_inline_scripts (html : str) : M unit :=
  let inline_scripts := findall1 inline_script_re html in
  print (LInlineScripts (length inline_scripts)) ;;
  when (10 <? length inline_scripts) (print LManyInlineScripts).

Definition report_external (script : str) : M unit :=
  parsed <- lift (urlparse P script) ;;
  let domain := netloc parsed in
  print (LExternal (if nonempty domain then domain else txt "relative path")
                   (slice_to 60 script)).

Definition check_external_scripts (html : str) : M unit :=
  let external_scripts := findall1 external_script_re html in
  when (nonempty external_scripts)
       (print (LExternalHeading (length external_scripts)) ;;
        for_each (firstn 10 external_scripts) report_external).

Definition lacks_csrf (form : str) : bool :=
  negb (contains (txt "csrf") (lower form))
  && negb (contains (txt "token") (lower form)).

Definition report_form (iform : nat * str) : M unit :=
  let '(i, form) := iform in
  when (lacks_csrf form) (print (LFormNoCsrf i)) ;;
  when (contains (txt "action=") (lower form))
       (match search action_re form with
        | Some action => print (LFormAction i (group 1 action))
        | None => ret tt
        end).

Definition check_forms (html : str) : M unit :=
  let forms := findall1 form_re html in
  when (nonempty forms)
       (print (LFormsFound (length forms)) ;;
        for_each (enumerate 1 forms) report_form).

Definition check_emails (html : str) : M unit :=
  let emails := findall0 email_re html in
  when (nonempty emails)
       (print (LEmailsHeading (length (set_iter P emails))) ;;
        for_each (firstn 5 (set_iter P emails)) (fun email => print (LEmail email))).

Definition report_secret (kv : str * str) : M unit :=
  let '(key_type, key_value) := kv in
  print (LSecret key_type (slice_to 20 key_value)).

Definition check_secrets (html : str) : M unit :=
  let potential_keys := findall2 secret_re html in
  when (nonempty potential_keys)
       (print LSecretsHeading ;; for_each potential_keys report_secret).

Definition analyze_html (html : str) : M unit :=
  check_comments html ;;
  check_inline_scripts html ;;
  check_external_scripts html ;;
  check_forms html ;;
  check_emails html ;;
  check_secrets html.

Definition analyze_html_content (response : option Response) : M unit :=
  banner TitleHtml ;;
  match response with
  | Some r => if ok r then analyze_html (text r) else ret tt
  | None => ret tt
  end.

(** *** check_ssl_tls (lines 183-200) *)

Definition check_ssl_tls (url : str) : M unit :=
  banner TitleTls ;;
  parsed <- lift (urlparse P url) ;;
  if eqs (scheme parsed) (txt "http") then
    print LHttpWarning ;; print LHttpRecommend
  else if eqs (scheme parsed) (txt "https") then
    print LHttpsOk ;;
    try_except
      (_ <- requests_get url 10 true ;; print LCertValid)
      (fun e => if is_ssl_error e then Some (print (LSslError e)) else None)
  else ret tt.

(** *** check_information_disclosure (lines 202-227) *)

Definition disclose (r : Response) : M unit :=
  let hs := headers r in
  (match header_get (txt "Server") hs with
   | Some v => print (LServer v) ;; print LServerWarn
   | None => ret tt
   end) ;;
  (match header_get (txt "X-Powered-By") hs with
   | Some v => print (LPoweredBy v) ;; print LPoweredByWarn
   | None => ret tt
   end) ;;
  let versions := findall1 version_re (text r) in
  when (nonempty versions) (print (LVersions (set_iter P versions))).

Definition check_information_disclosure (response : option Response) : M unit :=
  banner TitleDisclosure ;;
  match response with
  | Some r => if ok r then disclose r else ret tt
  | None => ret tt
  end.

(** *** generate_recommendations (lines 229-254) *)

Definition recommendations : list str :=
  map txt
    [ "1. Enable all missing security headers (HSTS, CSP, X-Frame-Options)";
      "2. Implement Content Security Policy (CSP) to prevent XSS";
      "3. Add CSRF tokens to all forms";
      "4. Use HTTPS everywhere (enable HSTS)";
      "5. Set Secure, HttpOnly, and SameSite flags on cookies";
      "6. Remove or protect sensitive files (.git, .env, backups)";
      "7. Hide server version information";
      "8. Implement rate limiting on forms and API endpoints";
      "9. Add input validation and sanitization";
      "10. Regular security audits and penetration testing";
      "11. Keep all dependencies and frameworks updated";
      "12. Implement proper authentication and authorization";
      "13. Use secure password hashing (bcrypt, Argon2)";
      "14. Enable audit logging for security events";
      "15. Regular backup and disaster recovery plan" ]%string.

Definition generate_recommendations (url : str) : M unit :=
  banner TitleRecommend ;;
  for_each recommendations (fun rec => print (LRecommendation rec)).

(** *** main (lines 256-278) *)

(** the URL audited for the line typed at the prompt *)
Definition target_of (typed : str) : str :=
  let url := strip typed in
  if startswith (txt "http") url then url else txt "https://" ++ url.

Definition run_all_checks (url : str) : M unit :=
  check_ssl_tls url ;;
  response <- check_security_headers url ;;
  check_common_files url ;;
  analyze_html_content response ;;
  check_information_disclosure response ;;
  generate_recommendations url.

Definition main (typed : str) : M unit :=
  print LPrompt ;;
  let url := target_of typed in
  print (LStarting url) ;;
  print LTime ;;
  run_all_checks url ;;
  banner TitleComplete ;;
  print LDisclaimer1 ;;
  print LDisclaimer2 ;;
  print LRule.

End WithPlatform.

(** A run of the script: nothing requested yet. *)
Definition run {A} (m : M A) : outcome A := m [].

End Script.
Export Script.

(** ** Reading the printed lines as findings *)

Module Report.

Inductive Category : Type :=
| HeaderMissing | CookieFlag | ExposedFile | SensitiveComment
| NoCsrfToken | ExposedSecret | WeakTls | InfoDisclosure.

Inductive Severity : Type := Info | Warning | Critical.

Record Finding : Type := {
  category : Category;
  severity : Severity;
  evidence : str
}.

Definition category_eqb (a b : Category) : bool :=
  match a, b with
  | HeaderMissing, HeaderMissing | CookieFlag, CookieFlag
  | ExposedFile, ExposedFile | SensitiveComment, SensitiveComment
  | NoCsrfToken, NoCsrfToken | ExposedSecret, ExposedSecret
  | WeakTls, WeakTls | InfoDisclosure, InfoDisclosure => true
  | _, _ => false
  end.

(** the action printed for form [i], when the line after its warning is
    that form's action line *)
Definition action_after (i : nat) (next : list Line) : str :=
  match next with
  | LFormAction j action :: _ => if i =? j then action else []
  | _ => []
  end.

(** The finding a line reports, if it reports one.  The severity is the
    mark the script prints: the warning sign is [Warning], also where the
    text says WARNING; the heading that says CRITICAL and the cross mark
    of an error are [Critical]. *)
Definition finding_at (l : Line) (next : list Line) : option Finding :=
  match l with
  | LMissing header _ => Some (Build_Finding HeaderMissing Warning header)
  | LCookieNoSecure => Some (Build_Finding CookieFlag Warning (txt "Secure"))
  | LCookieNoHttpOnly => Some (Build_Finding CookieFlag Warning (txt "HttpOnly"))
  | LCookieNoSameSite => Some (Build_Finding CookieFlag Warning (txt "SameSite"))
  | LExposed file _ => Some (Build_Finding ExposedFile Warning file)
  | LCommentSensitive _ cleaned =>
      Some (Build_Finding SensitiveComment Warning cleaned)
  | LFormNoCsrf i => Some (Build_Finding NoCsrfToken Warning (action_after i next))
  | LSecret key_type value20 =>
      Some (Build_Finding ExposedSecret Critical (key_type ++ txt ": " ++ value20))
  | LHttpWarning => Some (Build_Finding WeakTls Warning [])
  | LSslError e => Some (Build_Finding WeakTls Critical (message e))
  | LServer value => Some (Build_Finding InfoDisclosure Warning value)
  | LPoweredBy value => Some (Build_Finding InfoDisclosure Warning value)
  | LVersions versions => Some (Build_Finding InfoDisclosure Warning (concat versions))
  | _ => None
  end.

Fixpoint findings (ls : list Line) : list Finding :=
  match ls with
  | [] => []
  | l :: next =>
      match finding_at l next with
      | Some f => f :: findings next
      | None => findings next
      end
  end.

Definition of_category (c : Category) (fs : list Finding) : list Finding :=
  filter (fun f => category_eqb (category f) c) fs.

(** the finding of category [c] that a line reports whatever follows it *)
Definition line_findings (c : Category) (l : Line) : list Finding :=
  match finding_at l [] with
  | Some f => if category_eqb (category f) c then [f] else []
  | None => []
  end.

Definition count_category (c : Category) (ls : list Line) : nat :=
  length (of_category c (findings ls)).

(** the categories whose evidence the script cuts or takes from a fixed
    table *)
Definition capped (c : Category) : bool :=
  match c with
  | HeaderMissing | CookieFlag | ExposedFile | SensitiveComment
  | ExposedSecret => true
  | NoCsrfToken | WeakTls | InfoDisclosure => false
  end.

(** the counters of the summary line: files checked and files exposed *)
Definition summary_of (l : Line) : option (nat * nat) :=
  match l with
  | LSummary safe total => Some (total, total - safe)
  | _ => None
  end.

(** the summaries printed among lines *)
Definition summaries (ls : list Line) : list (nat * nat) :=
  flat_map (fun l => match summary_of l with Some s => [s] | None => [] end) ls.

Definition is_exposed_line (l : Line) : bool :=
  match l with LExposed _ _ => true | _ => false end.

Definition is_email_line (l : Line) : bool :=
  match l with LEmail _ => true | _ => false end.

Definition is_versions_line (l : Line) : bool :=
  match l with LVersions _ => true | _ => false end.

End Report.
Export Report.

(** ** Platforms to run the script on *)

Module Sample.

(** [set] iteration in order of first appearance, and in the reverse of
    it: two of the orders a hash seed can produce *)
Fixpoint first_seen (xs : list str) : list str :=
  match xs with
  | [] => []
  | x :: xs' => x :: filter (fun y => negb (eqs x y)) (first_seen xs')
  end.

Definition last_seen_first (xs : list str) : list str := rev (first_seen xs).

(** a database for texts written with the characters up to U+00FF:
    above them it changes no case and knows no letter or digit *)
Definition latin_only : Unicode :=
  {| wide_lower := fun _ c _ => [c]; wide_alnum := fun _ => false |}.

(** the scheme and host split of [urlsplit], for URLs free of control
    characters: a leading letter and scheme characters up to the first
    colon make the scheme, lowered; the host follows two slashes and a
    lone bracket in it is an error *)
Definition is_scheme_char (c : char) : bool :=
  is_lower_az c || is_upper_az c || is_digit c || one_of (txt "+-.") c.

Fixpoint split_at_colon (s : str) : option (str * str) :=
  match s with
  | [] => None
  | c :: s' =>
      if chr ":" c then Some ([], s')
      else match split_at_colon s' with
           | Some (a, b) => Some (c :: a, b)
           | None => None
           end
  end.

Fixpoint host_part (s : str) : str :=
  match s with
  | [] => []
  | c :: s' => if one_of (txt "/?#") c then [] else c :: host_part s'
  end.

Definition split_scheme (url : str) : str * str :=
  match split_at_colon url with
  | Some (c :: a, b) =>
      if (is_lower_az c || is_upper_az c) && forallb is_scheme_char (c :: a)
      then (map lower_char (c :: a), b) else ([], url)
  | _ => ([], url)
  end.

Definition simple_urlparse (url : str) : exn + ParseResult :=
  let '(sch, rest) := split_scheme url in
  if startswith (txt "//") rest then
    let host := host_part (skipn 2 rest) in
    if xorb (existsb (chr "[") host) (existsb (chr "]") host)
    then inl (Exn ValueError (txt "Invalid IPv6 URL"))
    else inr (Build_ParseResult sch host)
  else inr (Build_ParseResult sch []).

(** [urljoin] of a base that is a scheme and a host with a relative file
    name; the base is parsed first, and rejected as [urlparse] rejects
    it *)
Definition simple_urljoin (base file : str) : exn + str :=
  match simple_urlparse base with
  | inl e => inl e
  | inr _ => inr (base ++ txt "/" ++ file)
  end.

(** a network that answers the page requests (redirects followed) with
    [page] and the file probes (redirects not followed) with [probe] *)
Definition two_way_net (page : exn + Response) (probe : str -> exn + Response)
    : list Request -> Request -> exn + Response :=
  fun _ rq => if req_allow_redirects rq then page else probe (req_url rq).

Definition platform (page : exn + Response) (probe : str -> exn + Response)
    (order : list str -> list str) : Platform :=
  Build_Platform (two_way_net page probe) simple_urlparse simple_urljoin order.

Definition status_only (n : nat) : exn + Response :=
  inr (Build_Response n [] []).

(** [n] copies of a character *)
Definition chars (n : nat) (c : ascii) : str := repeat (ch c) n.

Definition dq (s : string) : str := dquote :: txt s ++ [dquote].

End Sample.
Export Sample.

(** ** What a match means *)

Module ReSpec.

(** the character before the position reached after reading [cs] *)
Definition prev_after (prev : option char) (cs : str) : option char :=
  fold_left (fun _ c => Some c) cs prev.

(** [Matches r st st']: from position [st] the pattern [r] can read up to
    position [st'], capturing the groups that [st'] adds. *)
Inductive Matches : regex -> mstate -> mstate -> Prop :=
| MEps : forall st, Matches Eps st st
| MCls : forall p c t st,
    m_rest st = c :: t -> p c = true ->
    Matches (Cls p) st (MState (Some c) t (m_caps st))
| MSeq : forall a b st st1 st2,
    Matches a st st1 -> Matches b st1 st2 -> Matches (Seq a b) st st2
| MAltL : forall a b st st', Matches a st st' -> Matches (Alt a b) st st'
| MAltR : forall a b st st', Matches b st st' -> Matches (Alt a b) st st'
| MRep : forall g n p st cs t,
    m_rest st = cs ++ t -> forallb p cs = true -> n <= length cs ->
    Matches (Rep g n p) st (MState (prev_after (m_prev st) cs) t (m_caps st))
| MGrp : forall i a st st',
    Matches a st st' ->
    Matches (Grp i a) st
      (set_cap i (firstn (length (m_rest st) - length (m_rest st')) (m_rest st)) st')
| MBnd : forall w st, at_boundary w st = true -> Matches (Bnd w) st st.

(** the texts a pattern can read, whatever surrounds them *)
Fixpoint lang (r : regex) (cs : str) : Prop :=
  match r with
  | Eps => cs = []
  | Cls p => exists c, cs = [c] /\ p c = true
  | Seq a b => exists c1 c2, cs = c1 ++ c2 /\ lang a c1 /\ lang b c2
  | Alt a b => lang a cs \/ lang b cs
  | Rep _ n p => forallb p cs = true /\ n <= length cs
  | Grp _ a => lang a cs
  | Bnd _ => cs = []
  end.

Fixpoint group_free (r : regex) : bool :=
  match r with
  | Seq a b | Alt a b => group_free a && group_free b
  | Grp _ _ => false
  | _ => true
  end.

(** a character as [re.IGNORECASE] compares it with an ASCII letter of a
    pattern: in lower case, the capital I with a dot and the dotless i as
    i, the Kelvin sign as k, the long s as s *)
Definition fold_char (c : char) : char :=
  if (c <=? 255)%N then lower_char c
  else if (c =? 304)%N || (c =? 305)%N then 105%N
  else if (c =? 8490)%N then 107%N
  else if (c =? 383)%N then 115%N
  else c.

(** the key names of the secret pattern *)
Definition secret_key_names : list str :=
  map txt ["api_key"; "api-key"; "apikey"; "token"; "secret"; "password"]%string.

End ReSpec.
Export ReSpec.

(** ** Vocabulary of the statements *)

Module Vocabulary.

Section WithPlatform.

Context {U : Unicode}.
Variable P : Platform.

(** the request [check_common_files] issues for the joined address of a
    file *)
Definition probe_request (url : str) : Request := Build_Request url 5 false.

(** the request for the page, issued by [check_ssl_tls] and
    [check_security_headers] *)
Definition page_request (url : str) : Request := Build_Request url 10 true.

(** the files of the list that are probed, each with its address: those
    before the first one [urljoin] rejects *)
Fixpoint probes (base_url : str) (files : list str) : list (str * str) :=
  match files with
  | [] => []
  | file :: files' =>
      match urljoin P base_url file with
      | inr url => (file, url) :: probes base_url files'
      | inl _ => []
      end
  end.

(** the error of the first file [urljoin] rejects, if it rejects one *)
Fixpoint join_error (base_url : str) (files : list str) : option exn :=
  match files with
  | [] => None
  | file :: files' =>
      match urljoin P base_url file with
      | inr _ => join_error base_url files'
      | inl e => Some e
      end
  end.

Definition returns_200 (cs : list Request) (rq : Request) : bool :=
  match net P cs rq with
  | inr r => status_code r =? 200
  | inl _ => false
  end.

(** the files whose probe, issued in list order after the requests [cs],
    answers with status 200 *)
Fixpoint exposed_files (cs : list Request) (ps : list (str * str))
    : list str :=
  match ps with
  | [] => []
  | (file, url) :: ps' =>
      let rq := probe_request url in
      (if returns_200 cs rq then [file] else [])
      ++ exposed_files (cs ++ [rq]) ps'
  end.

(** the requests of the probes [ps] *)
Definition probe_requests (ps : list (str * str)) : list Request :=
  map (fun fu => probe_request (snd fu)) ps.

(** what [check_common_files] prints after its loop over [n] files, of
    which those of [xs] answered with status 200 *)
Definition file_lines (n : nat) (xs : list str) : list Line :=
  (if nonempty xs
   then LExposedHeading :: map (fun f => LExposed f 200) xs
   else [LNoneExposed])
  ++ [LSummary (n - length xs) n].

Definition parses (s : str) : bool :=
  match urlparse P s with inr _ => true | inl _ => false end.

(** [urlparse] accepts the external script addresses the analysis lists *)
Definition scripts_parse (html : str) : bool :=
  forallb parses (firstn 10 (findall1 external_script_re html)).

(** the response [main] hands to [analyze_html_content] and
    [check_information_disclosure] in an audit of [url], when the run
    gets that far *)
Definition response_of (url : str) : option (option Response) :=
  match res ((check_ssl_tls P url ;;
              response <- check_security_headers P url ;;
              check_common_files P url ;;
              ret response) []) with
  | Done response => Some response
  | Raised _ => None
  end.

(** the page whose text an audit of [url] analyses: the response handed
    on, when there is one and it is truthy *)
Definition page_of (url : str) : option Response :=
  match response_of url with
  | Some (Some r) => if ok r then Some r else None
  | _ => None
  end.

(** the e-mail notes of an audit that analyses [page]: the first five of
    its addresses as the set of them is iterated, when the analysis gets
    past the external scripts *)
Definition notes_of (page : option Response) : list str :=
  match page with
  | Some r => if scripts_parse (text r)
              then firstn 5 (set_iter P (findall0 email_re (text r)))
              else []
  | None => []
  end.

End WithPlatform.

Section WithUnicode.

Context {U : Unicode}.

Definition banner_lines (t : section_title) : list Line :=
  [LRuleNl; LTitle t; LRule].

(** the names of [table] that a response with headers [hs] lacks *)
Definition absent_headers (table : list (str * str)) (hs : list (str * str))
    : list str :=
  filter (fun h => negb (header_in h hs)) (map fst table).

(** what [check_security_headers] prints about the seven headers *)
Definition header_lines (hs : list (str * str)) : list Line :=
  let '(present, missing) := sort_headers security_headers hs in
  (if nonempty present then LPresentHeading :: present else [])
  ++ (if nonempty missing then LMissingHeading :: missing else []).

Definition secret_finding (kv : str * str) : Finding :=
  Build_Finding ExposedSecret Critical (fst kv ++ txt ": " ++ slice_to 20 (snd kv)).

Definition comment_finding (cleaned : str) : Finding :=
  Build_Finding SensitiveComment Warning cleaned.

Definition missing_finding (header : str) : Finding :=
  Build_Finding HeaderMissing Warning header.

Definition with_evidence (e : str) (fs : list Finding) : list Finding :=
  filter (fun f => eqs (evidence f) e) fs.

(** lines that do not depend on the iteration order of a set *)
Definition order_free (l : Line) : bool :=
  negb (is_email_line l || is_versions_line l).

Definition email_of (l : Line) : list str :=
  match l with LEmail e => [e] | _ => [] end.

(** the addresses of the e-mail notes among printed lines *)
Definition emails_of (ls : list Line) : list str := flat_map email_of ls.

(** a computation that only prints: it ends normally, issues no request
    and prints the same lines from any start *)
Definition prints_only (m : M unit) : Prop :=
  forall cs, m cs = Outcome (Done tt) cs (out (m [])).

(** every line a computation prints satisfies [Q], from any start *)
Definition emits {A} (Q : Line -> Prop) (m : M A) : Prop :=
  forall cs, Forall Q (out (m cs)).

(** the line reports no finding of category [c] *)
Definition silent_for (c : Category) (l : Line) : Prop :=
  line_findings c l = [].

(** the line reports no finding, or one whose evidence is at most a
    hundred characters when its category is a capped one *)
Definition line_capped (l : Line) : Prop :=
  match finding_at l [] with
  | Some f => capped (category f) = true -> length (evidence f) <= 100
  | None => True
  end.

(** the line is no e-mail note *)
Definition quiet (l : Line) : Prop := email_of l = [].

Definition line_plain (l : Line) : Prop := line_capped l /\ quiet l.

(** two computations that agree on result, requests and every line that
    does not depend on the iteration order of a set *)
Definition agree {A} (m1 m2 : M A) : Prop :=
  forall cs,
    res (m1 cs) = res (m2 cs) /\ calls (m1 cs) = calls (m2 cs) /\
    filter order_free (out (m1 cs)) = filter order_free (out (m2 cs)).

(** the steps of [analyze_html_content], and the lines each can print *)
Inductive stage : Type :=
| AtComments | AtInline | AtExternal | AtForms | AtEmails | AtSecrets.

Definition stage_line (html : str) (s : stage) (l : Line) : Prop :=
  match s, l with
  | AtComments, LCommentsFound _ => True
  | AtComments, LCommentSensitive _ cleaned => length cleaned <= 100
  | AtComments, LCommentPlain _ _ => True
  | AtInline, LInlineScripts _ => True
  | AtInline, LManyInlineScripts => True
  | AtExternal, LExternalHeading _ => True
  | AtExternal, LExternal _ _ => True
  | AtForms, LFormsFound _ => True
  | AtForms, LFormNoCsrf _ => True
  | AtForms, LFormAction _ _ => True
  | AtEmails, LEmailsHeading _ => True
  | AtEmails, LEmail _ => True
  | AtSecrets, LSecretsHeading => True
  | AtSecrets, LSecret key_type value20 =>
      exists kv, In kv (findall2 secret_re html) /\
                 key_type = fst kv /\ value20 = slice_to 20 (snd kv)
  | _, _ => False
  end.

(** a line of one of the steps in [among] *)
Definition stages_line (html : str) (among : list stage) (l : Line) : Prop :=
  exists s, In s among /\ stage_line html s l.

(** the line [report_comment] prints *)
Definition comment_line (ic : nat * str) : Line :=
  if has_keyword (clean (snd ic))
  then LCommentSensitive (fst ic) (clean (snd ic))
  else LCommentPlain (fst ic) (clean (snd ic)).

(** what the comment step prints *)
Definition comment_lines (html : str) : list Line :=
  let comments := findall1 comment_re html in
  if nonempty comments
  then LCommentsFound (length comments)
       :: map comment_line (enumerate 1 (firstn 5 comments))
  else [].

(** what the secret step prints *)
Definition secret_lines (html : str) : list Line :=
  let potential_keys := findall2 secret_re html in
  if nonempty potential_keys
  then LSecretsHeading
       :: map (fun kv => LSecret (fst kv) (slice_to 20 (snd kv))) potential_keys
  else [].

(** at most five e-mail notes, all distinct *)
Definition notes_ok (es : list str) : Prop := NoDup es /\ length es <= 5.

End WithUnicode.

End Vocabulary.
Export Vocabulary.

(** ** Concrete runs *)

Module Cases.

Definition example_test : str := txt "https://example.test".
Definition example_http : str := txt "http://example.com".

Definition plain_page (body : str) : Response :=
  Build_Response 200 [(txt "Content-Type", txt "text/html")] body.

Definition not_found : str -> exn + Response := fun _ => status_only 404.

(** a site that serves [body] and has none of the probed files *)
Definition serving (body : str) : Platform :=
  platform (inr (plain_page body)) not_found first_seen.

(** the same site when sets are iterated in the other order *)
Definition serving_reordered (body : str) : Platform :=
  platform (inr (plain_page body)) not_found last_seen_first.

(** a site whose page request fails with [e] *)
Definition failing (e : exn) : Platform :=
  platform (inl e) not_found first_seen.

Definition form_body : str :=
  txt "<form><input name=" ++ dq "x" ++ txt "></form>".

Definition token26_body : str := txt "token=" ++ dq "abcdefghijklmnopqrstuvwxyz".
Definition token20_body : str := txt "token=" ++ dq "abcdefghijklmnopqrst".

(** a page whose script address has an unclosed bracket, before the token
    of 26 letters *)
Definition bad_script_body : str :=
  txt "<script src=" ++ dq "http://[::1" ++ txt "></script>" ++ token26_body.

(** a page with a form, a version and a Server header, sent with the
    given status *)
Definition page_with_status (status : nat) : Response :=
  Build_Response status [(txt "Server", txt "nginx/1.2.3")]
                 (txt "<form></form> version: 1.2.3").

Definition long_action : str := txt "/" ++ chars 100 "a".

Definition long_action_body : str :=
  txt "<form><button formaction=" ++ [dquote] ++ long_action ++ [dquote]
  ++ txt "></button></form>".

Definition long_tls_failure : exn := Exn SSLError (chars 101 "x").

Definition read_timeout : exn := Exn Timeout (txt "Read timed out.").
Definition refused : exn := Exn ConnectionError (txt "Connection refused").

Definition six_comments_body : str :=
  txt "<!--a--><!--b--><!--c--><!--d--><!--e--><!--password-->".

Definition late_keyword_body : str :=
  txt "<!--" ++ chars 100 "x" ++ txt "password-->".

Definition two_emails_body : str := txt "a@b.co c@d.co".

End Cases.
Export Cases.

(** * Properties *)

(** ** Laws of the effects *)

Unset Implicit Arguments.

Section General.

Context {U : Unicode}.

Lemma bind_done {A B} (m : M A) (f : A -> M B) cs a cs' o :
  m cs = Outcome (Done a) cs' o ->
  bind m f cs = Outcome (res (f a cs')) (calls (f a cs')) (o ++ out (f a cs')).
Proof. intros H. unfold bind. rewrite H. reflexivity. Qed.

Lemma bind_raised {A B} (m : M A) (f : A -> M B) cs e cs' o :
  m cs = Outcome (Raised e) cs' o ->
  bind m f cs = Outcome (Raised e) cs' o.
Proof. intros H. unfold bind. rewrite H. reflexivity. Qed.

Lemma for_each_print (ls : list Line) cs :
  for_each ls print cs = Outcome (Done tt) cs ls.
Proof.
  revert cs. induction ls as [|l ls IH]; intros cs; simpl.
  - reflexivity.
  - unfold bind. simpl. rewrite IH. reflexivity.
Qed.

Lemma banner_runs t cs : banner t cs = Outcome (Done tt) cs (banner_lines t).
Proof. reflexivity. Qed.

Section Files.

Variable P : Platform.
Variable base : str.

Lemma probe_file_runs exposed safe file url cs :
  urljoin P base file = inr url ->
  probe_file P base (exposed, safe) file cs =
  Outcome
    (Done (if returns_200 P cs (probe_request url)
           then (exposed ++ [LExposed file 200], safe)
           else (exposed, safe + 1)))
    (cs ++ [probe_request url]) [].
Proof.
  intros Hj. unfold probe_file. rewrite Hj. cbn [lift].
  erewrite bind_done by reflexivity. cbn [app].
  unfold try_except, bind, requests_get, returns_200, probe_request.
  destruct (net P cs _) as [e|r]; simpl.
  - reflexivity.
  - destruct (status_code r =? 200) eqn:E; simpl.
    + apply Nat.eqb_eq in E. rewrite E. reflexivity.
    + reflexivity.
Qed.

Lemma probe_file_stops exposed safe file e cs :
  urljoin P base file = inl e ->
  probe_file P base (exposed, safe) file cs = Outcome (Raised e) cs [].
Proof.
  intros Hj. unfold probe_file. rewrite Hj. reflexivity.
Qed.

Lemma exposed_files_length ps : forall cs,
  length (exposed_files P cs ps) <= length ps.
Proof.
  induction ps as [|[f u] ps IH]; intros cs; simpl.
  - lia.
  - rewrite length_app. specialize (IH (cs ++ [probe_request u])).
    destruct (returns_200 P cs _); simpl; lia.
Qed.

Lemma probes_all files :
  join_error P base files = None -> map fst (probes P base files) = files.
Proof.
  induction files as [|f fs IH]; cbn [join_error probes]; [reflexivity|].
  destruct (urljoin P base f); [discriminate|].
  intros H. cbn [map fst]. now rewrite IH.
Qed.

Lemma probes_length files :
  join_error P base files = None ->
  length (probes P base files) = length files.
Proof.
  intros H. rewrite <- (probes_all files H) at 2. now rewrite length_map.
Qed.

Lemma probe_loop_runs files : forall exposed safe cs,
  let ps := probes P base files in
  for_fold files (exposed, safe) (probe_file P base) cs =
  Outcome
    (match join_error P base files with
     | None =>
         Done (exposed ++ map (fun f => LExposed f 200) (exposed_files P cs ps),
               safe + (length ps - length (exposed_files P cs ps)))
     | Some e => Raised e
     end)
    (cs ++ probe_requests ps) [].
Proof.
  induction files as [|f fs IH]; intros exposed safe cs;
    cbn [for_fold probes join_error].
  - cbn. rewrite !app_nil_r, Nat.add_0_r. reflexivity.
  - destruct (urljoin P base f) as [e|u] eqn:Hj.
    + erewrite bind_raised by (apply probe_file_stops; exact Hj).
      cbn. now rewrite app_nil_r.
    + erewrite bind_done by (apply probe_file_runs; exact Hj).
      pose proof (exposed_files_length (probes P base fs)
                    (cs ++ [probe_request u])) as Hl.
      cbn zeta in IH.
      destruct (returns_200 P cs (probe_request u)) eqn:E; rewrite IH;
        cbn [res calls out app probe_requests map snd exposed_files];
        rewrite E; unfold probe_requests; rewrite <- ?app_assoc;
        cbn [app length];
        destruct (join_error P base fs); try reflexivity.
      do 3 f_equal. lia.
Qed.

End Files.

Section FilesCheck.
Variable P : Platform.

Lemma check_files_runs files base cs :
  let ps := probes P base files in
  check_files P files base cs =
  Outcome
    (match join_error P base files with
     | None => Done tt
     | Some e => Raised e
     end)
    (cs ++ probe_requests ps)
    (banner_lines TitleFiles
     ++ match join_error P base files with
        | None => file_lines (length files) (exposed_files P cs ps)
        | Some _ => []
        end).
Proof.
  intros ps. unfold check_files.
  erewrite bind_done by apply banner_runs.
  unfold probe_files.
  pose proof (probe_loop_runs P base files [] 0 cs) as Hl. cbn zeta in Hl.
  pose proof (probes_length P base files) as Hn.
  destruct (join_error P base files) as [e|].
  - erewrite bind_raised by exact Hl. reflexivity.
  - erewrite bind_done by exact Hl. subst ps. rewrite (Hn eq_refl).
    cbn [app Nat.add]. unfold file_lines.
    destruct (exposed_files P cs (probes P base files)) as [|x xs'] eqn:E;
      simpl.
    + reflexivity.
    + unfold bind. simpl. rewrite for_each_print. reflexivity.
Qed.

(** when [urljoin] accepts the base with every file, each is probed *)
Lemma joins_all files base :
  (forall file, In file files -> exists url, urljoin P base file = inr url) ->
  join_error P base files = None.
Proof.
  induction files as [|f fs IH]; intros H; cbn [join_error]; [reflexivity|].
  destruct (H f) as [u Hu]; [now left|]. rewrite Hu.
  apply IH. intros file Hin. apply H. now right.
Qed.

End FilesCheck.

(** ** Text equality *)

Lemma eqc_eq a b : eqc a b = true <-> a = b.
Proof. unfold eqc. apply N.eqb_eq. Qed.

Lemma eqs_eq a : forall b, eqs a b = true <-> a = b.
Proof.
  induction a as [|x a IH]; intros [|y b]; simpl; split; try congruence.
  - intros H. apply andb_true_iff in H as [H1 H2].
    apply eqc_eq in H1. apply IH in H2. congruence.
  - intros H. inversion H; subst. apply andb_true_iff. split.
    + now apply eqc_eq.
    + now apply IH.
Qed.

Lemma eqs_refl a : eqs a a = true.
Proof. now apply eqs_eq. Qed.

Lemma eqs_neq a b : a <> b -> eqs a b = false.
Proof.
  intros H. destruct (eqs a b) eqn:E; [|reflexivity].
  apply eqs_eq in E. contradiction.
Qed.

(** ** Findings of a printed text *)

Lemma findings_linewise c ls :
  c <> NoCsrfToken ->
  of_category c (findings ls) = flat_map (line_findings c) ls.
Proof.
  intros Hc. induction ls as [|l ls IH]; [reflexivity|].
  unfold of_category in *.
  destruct l; destruct c; try congruence;
    simpl; unfold line_findings; simpl; rewrite ?IH; reflexivity.
Qed.

Lemma filter_all {A} (f : A -> bool) xs :
  (forall x, In x xs -> f x = true) -> filter f xs = xs.
Proof.
  induction xs as [|x xs IH]; simpl; intros H; [reflexivity|].
  rewrite H by now left. f_equal. apply IH. intros; apply H; now right.
Qed.

Lemma filter_none {A} (f : A -> bool) xs :
  (forall x, In x xs -> f x = false) -> filter f xs = [].
Proof.
  induction xs as [|x xs IH]; simpl; intros H; [reflexivity|].
  rewrite H by now left. apply IH. intros; apply H; now right.
Qed.

Lemma flat_map_none {A B} (f : A -> list B) xs :
  (forall x, In x xs -> f x = []) -> flat_map f xs = [].
Proof.
  induction xs as [|x xs IH]; simpl; intros H; [reflexivity|].
  rewrite H by now left. apply IH. intros; apply H; now right.
Qed.

(** C1.  A run of the file-exposure prober over a list of paths (the
    script runs it on its fixed list, [check_common_files] being
    [check_files common_files]) issues one non-redirecting request per
    path, in list order, for the address [urljoin] gives.  When it gets
    through the list it ends normally: a path is reported exposed exactly
    when its request answers with status 200; every other status and every
    failure of the request counts as safe; the summary line carries [safe]
    and the number of paths checked, and exposed + safe = checked.  The
    one way not to get through the list is that [urljoin], called before
    the request and outside its handler, rejects the base address: the
    run then ends with that error after the requests for the paths before
    it, and prints neither counters nor summary. *)
Theorem C1_exposure_counters (P : Platform) (files : list str) (base : str)
    (cs : list Request) :
  let o := check_files P files base cs in
  let ps := probes P base files in
  let exposed := filter is_exposed_line (out o) in
  check_common_files P base = check_files P common_files base /\
  calls o = cs ++ probe_requests ps /\
  match join_error P base files with
  | None =>
      res o = Done tt /\ map fst ps = files /\
      exposed = map (fun f => LExposed f 200) (exposed_files P cs ps) /\
      exists safe,
        last (out o) LRule = LSummary safe (length files) /\
        length exposed + safe = length files
  | Some e =>
      res o = Raised e /\ out o = banner_lines TitleFiles
  end.
Proof.
  intros o ps exposed. subst exposed o. rewrite check_files_runs.
  cbn [res calls out]. fold ps.
  split; [reflexivity|]. split; [reflexivity|].
  pose proof (probes_all P base files) as Ha.
  pose proof (probes_length P base files) as Hn.
  destruct (join_error P base files) as [e|].
  2:{ split; [reflexivity|]. split; [exact (Ha eq_refl)|].
      fold ps in Hn. specialize (Hn eq_refl).
      pose proof (exposed_files_length P ps cs) as Hl.
      set (xs := exposed_files P cs ps) in *.
      assert (Hf : filter is_exposed_line (file_lines (length files) xs)
                   = map (fun f => LExposed f 200) xs).
      { unfold file_lines. rewrite filter_app. simpl. rewrite app_nil_r.
        destruct xs as [|x xs']; [reflexivity|]. simpl. f_equal.
        apply filter_all. intros l Hin. apply in_map_iff in Hin as [f [<- _]].
        reflexivity. }
      assert (Hb : forall t, filter is_exposed_line (banner_lines TitleFiles ++ t)
                             = filter is_exposed_line t) by reflexivity.
      rewrite Hb, Hf. split; [reflexivity|].
      exists (length files - length xs). split.
      - unfold file_lines. rewrite !app_assoc. apply last_last.
      - rewrite length_map. lia. }
  split; [reflexivity | now rewrite app_nil_r].
Qed.

(** ** The checks that look at the scheme and at the status *)

Lemma not_ok_error_status r :
  400 <= status_code r -> status_code r < 600 -> ok r = false.
Proof.
  intros H1 H2. unfold ok.
  apply Nat.leb_le in H1. apply Nat.ltb_lt in H2. now rewrite H1, H2.
Qed.

(** C10.  When the page request answers with an error status (a 4xx or 5xx
    code, for which [requests] makes the response falsy), the HTML analysis
    and the information-disclosure check print their banner and nothing
    else: no finding, exactly as when the fetch failed and they are given
    [None]. *)
Theorem C10_error_status_skips_analysis (P : Platform) (r : Response)
    (cs : list Request) :
  400 <= status_code r -> status_code r < 600 ->
  falsy (Some r) = true /\
  analyze_html_content P (Some r) cs = analyze_html_content P None cs /\
  check_information_disclosure P (Some r) cs
    = check_information_disclosure P None cs /\
  out (analyze_html_content P (Some r) cs) = banner_lines TitleHtml /\
  findings (out (analyze_html_content P (Some r) cs)) = [] /\
  out (check_information_disclosure P (Some r) cs)
    = banner_lines TitleDisclosure /\
  findings (out (check_information_disclosure P (Some r) cs)) = [].
Proof.
  intros H1 H2. pose proof (not_ok_error_status r H1 H2) as Hok.
  unfold falsy, analyze_html_content, check_information_disclosure.
  rewrite Hok. repeat split.
Qed.

Lemma ssl_check_http (P : Platform) url cs p :
  urlparse P url = inr p -> scheme p = txt "http" ->
  check_ssl_tls P url cs =
  Outcome (Done tt) cs (banner_lines TitleTls ++ [LHttpWarning; LHttpRecommend]).
Proof.
  intros Hp Hs. unfold check_ssl_tls, bind. simpl. rewrite Hp. simpl.
  rewrite Hs. reflexivity.
Qed.

Lemma ssl_check_https_ok (P : Platform) url cs p r :
  urlparse P url = inr p -> scheme p = txt "https" ->
  net P cs (page_request url) = inr r ->
  check_ssl_tls P url cs =
  Outcome (Done tt) (cs ++ [page_request url])
          (banner_lines TitleTls ++ [LHttpsOk; LCertValid]).
Proof.
  intros Hp Hs Hn. unfold check_ssl_tls, bind. simpl. rewrite Hp. simpl.
  rewrite Hs. simpl. unfold try_except, requests_get. simpl.
  unfold page_request in Hn. rewrite Hn. reflexivity.
Qed.

Lemma ssl_check_https_ssl_error (P : Platform) url cs p e :
  urlparse P url = inr p -> scheme p = txt "https" ->
  net P cs (page_request url) = inl e -> kind e = SSLError ->
  check_ssl_tls P url cs =
  Outcome (Done tt) (cs ++ [page_request url])
          (banner_lines TitleTls ++ [LHttpsOk; LSslError e]).
Proof.
  intros Hp Hs Hn Hk. unfold check_ssl_tls, bind. simpl. rewrite Hp. simpl.
  rewrite Hs. simpl. unfold try_except, requests_get. simpl.
  unfold page_request in Hn. rewrite Hn. simpl.
  unfold is_ssl_error. rewrite Hk. reflexivity.
Qed.

Lemma ssl_check_https_other_error (P : Platform) url cs p e :
  urlparse P url = inr p -> scheme p = txt "https" ->
  net P cs (page_request url) = inl e -> is_ssl_error e = false ->
  check_ssl_tls P url cs =
  Outcome (Raised e) (cs ++ [page_request url])
          (banner_lines TitleTls ++ [LHttpsOk]).
Proof.
  intros Hp Hs Hn Hk. unfold check_ssl_tls, bind. simpl. rewrite Hp. simpl.
  rewrite Hs. simpl. unfold try_except, requests_get. simpl.
  unfold page_request in Hn. rewrite Hn. simpl.
  rewrite Hk. reflexivity.
Qed.

(** C8, as amended.  For a target whose scheme is http the TLS check ends
    normally without any request and reports exactly one WeakTls finding,
    which the script marks as a WARNING; for an https target a page request
    that succeeds gives no finding, and one that fails with an SSLError
    gives exactly one WeakTls finding, marked as an error, whose evidence
    is the failure message; in both cases one request is issued. *)
Theorem C8_tls_posture (P : Platform) (url : str) (cs : list Request)
    (p : ParseResult) :
  urlparse P url = inr p ->
  let o := check_ssl_tls P url cs in
  (scheme p = txt "http" ->
     res o = Done tt /\ calls o = cs /\
     findings (out o) = [Build_Finding WeakTls Warning []]) /\
  (scheme p = txt "https" ->
     forall r, net P cs (page_request url) = inr r ->
     res o = Done tt /\ calls o = cs ++ [page_request url] /\
     findings (out o) = []) /\
  (scheme p = txt "https" ->
     forall e, net P cs (page_request url) = inl e -> kind e = SSLError ->
     res o = Done tt /\ calls o = cs ++ [page_request url] /\
     findings (out o) = [Build_Finding WeakTls Critical (message e)]).
Proof.
  intros Hp o. subst o. split; [|split].
  - intros Hs. erewrite ssl_check_http by eassumption. repeat split.
  - intros Hs r Hn. erewrite ssl_check_https_ok by eassumption. repeat split.
  - intros Hs e Hn Hk. erewrite ssl_check_https_ssl_error by eassumption.
    repeat split.
Qed.

(** ** check_security_headers *)

Lemma check_cookie_runs (hs : list (str * str)) cs :
  check_cookie hs cs = Outcome (Done tt) cs (out (check_cookie hs [])).
Proof.
  unfold check_cookie. destruct (header_get (txt "Set-Cookie") hs) as [c|];
    [|reflexivity].
  unfold bind, when.
  destruct (contains (txt "Secure") c), (contains (txt "HttpOnly") c),
    (contains (txt "SameSite") c); reflexivity.
Qed.

Lemma check_cookie_no_missing (hs : list (str * str)) :
  flat_map (line_findings HeaderMissing) (out (check_cookie hs [])) = [].
Proof.
  unfold check_cookie. destruct (header_get (txt "Set-Cookie") hs) as [c|];
    [|reflexivity].
  unfold bind, when.
  destruct (contains (txt "Secure") c), (contains (txt "HttpOnly") c),
    (contains (txt "SameSite") c); reflexivity.
Qed.

Lemma requests_get_ok (P : Platform) url t a cs r :
  net P cs (Build_Request url t a) = inr r ->
  requests_get P url t a cs = Outcome (Done r) (cs ++ [Build_Request url t a]) [].
Proof. intros H. unfold requests_get. now rewrite H. Qed.

Lemma try_done {A} (m : M A) h cs a cs' o :
  m cs = Outcome (Done a) cs' o -> try_except m h cs = Outcome (Done a) cs' o.
Proof. intros H. unfold try_except. now rewrite H. Qed.

Lemma heading_then_lines (h : Line) (ls : list Line) cs :
  when (nonempty ls) (print h ;; for_each ls print) cs
  = Outcome (Done tt) cs (if nonempty ls then h :: ls else []).
Proof.
  destruct ls as [|l ls]; [reflexivity|].
  cbn [nonempty when]. erewrite bind_done by reflexivity.
  rewrite for_each_print. reflexivity.
Qed.

Lemma check_security_headers_runs (P : Platform) url cs r :
  net P cs (page_request url) = inr r ->
  check_security_headers P url cs =
  Outcome (Done (Some r)) (cs ++ [page_request url])
    (banner_lines TitleHeaders ++ header_lines (headers r)
     ++ out (check_cookie (headers r) [])).
Proof.
  intros Hn. unfold check_security_headers, header_lines.
  erewrite bind_done by apply banner_runs.
  erewrite try_done; [reflexivity|].
  erewrite bind_done by (apply requests_get_ok; exact Hn).
  destruct (sort_headers security_headers (headers r)) as [present missing].
  erewrite bind_done by apply heading_then_lines.
  erewrite bind_done by apply heading_then_lines.
  erewrite bind_done by apply check_cookie_runs.
  cbn [res calls out ret app]. rewrite app_nil_r, <- app_assoc. reflexivity.
Qed.

Lemma sort_headers_findings table hs :
  flat_map (line_findings HeaderMissing) (fst (sort_headers table hs)) = [] /\
  flat_map (line_findings HeaderMissing) (snd (sort_headers table hs))
  = map missing_finding (absent_headers table hs).
Proof.
  unfold absent_headers, header_in.
  induction table as [|[h d] table [IH1 IH2]]; [split; reflexivity|].
  cbn [sort_headers map filter fst].
  destruct (sort_headers table hs) as [present missing].
  destruct (header_get h hs); cbn [fst snd negb] in *.
  - split; [exact IH1 | exact IH2].
  - split; [exact IH1|]. cbn [flat_map map]. rewrite IH2. reflexivity.
Qed.

Lemma header_lines_findings hs :
  flat_map (line_findings HeaderMissing) (header_lines hs)
  = map missing_finding (absent_headers security_headers hs).
Proof.
  unfold header_lines.
  destruct (sort_headers_findings security_headers hs) as [H1 H2].
  destruct (sort_headers security_headers hs) as [present missing].
  cbn [fst snd] in *. rewrite flat_map_app.
  destruct present, missing; cbn [nonempty]; cbn [flat_map] in *;
    rewrite ?H1, <- ?H2; reflexivity.
Qed.

Lemma with_evidence_count (f : str -> bool) h names :
  NoDup names -> In h names ->
  length (with_evidence h (map missing_finding (filter f names)))
  = if f h then 1 else 0.
Proof.
  unfold with_evidence.
  induction names as [|n names IH]; intros Hnd Hin; [destruct Hin|].
  inversion Hnd as [|? ? Hnotin Hnd']; subst.
  assert (Hrest : ~ In h names ->
    filter (fun g => eqs (evidence g) h) (map missing_finding (filter f names)) = []).
  { intros Hno. apply filter_none. intros g Hg.
    apply in_map_iff in Hg as [x [<- Hx]]. apply filter_In in Hx as [Hx _].
    apply eqs_neq. simpl. intros ->. contradiction. }
  destruct Hin as [->|Hin].
  - cbn [filter]. destruct (f h); cbn [map filter evidence missing_finding].
    + rewrite eqs_refl. cbn [length]. now rewrite (Hrest Hnotin).
    + now rewrite (Hrest Hnotin).
  - assert (Hne : n <> h) by (intros ->; contradiction).
    cbn [filter]. destruct (f n); cbn [map filter evidence missing_finding].
    + rewrite (eqs_neq _ _ Hne). now apply IH.
    + now apply IH.
Qed.

Lemma security_header_names_nodup : NoDup (map fst security_headers).
Proof.
  repeat (constructor; [cbn; intuition discriminate|]). constructor.
Qed.

(** C6.  When the page request succeeds, the header check returns the
    response and its HeaderMissing findings are, in table order, one for
    each of the seven security header names that the response lacks under
    case-insensitive lookup: one finding for an absent name and none for a
    present one, each at Warning severity; none for
    Strict-Transport-Security when the response carries it, and exactly
    seven when the response carries none of the seven. *)
Theorem C6_missing_headers (P : Platform) (url : str) (cs : list Request)
    (r : Response) :
  net P cs (page_request url) = inr r ->
  let o := check_security_headers P url cs in
  let fs := of_category HeaderMissing (findings (out o)) in
  let names := map fst security_headers in
  res o = Done (Some r) /\
  length names = 7 /\
  fs = map missing_finding (absent_headers security_headers (headers r)) /\
  (forall h, In h names ->
     length (with_evidence h fs) = if header_in h (headers r) then 0 else 1) /\
  (forall f, In f fs -> severity f = Warning) /\
  (header_in (txt "Strict-Transport-Security") (headers r) = true ->
     with_evidence (txt "Strict-Transport-Security") fs = []) /\
  ((forall h, In h names -> header_in h (headers r) = false) -> length fs = 7) /\
  (forall v hs, header_in (txt "Strict-Transport-Security")
                  ((txt "strict-transport-security", v) :: hs) = true).
Proof.
  intros Hn o fs names.
  assert (Hfs : fs = map missing_finding
                       (absent_headers security_headers (headers r))).
  { subst fs o. rewrite (check_security_headers_runs P url cs r Hn).
    cbn [out]. rewrite findings_linewise by discriminate.
    rewrite !flat_map_app, header_lines_findings, check_cookie_no_missing.
    cbn [banner_lines flat_map line_findings finding_at app].
    now rewrite app_nil_r. }
  assert (Hcount : forall h, In h names ->
     length (with_evidence h fs) = if header_in h (headers r) then 0 else 1).
  { intros h Hin. rewrite Hfs. unfold absent_headers.
    rewrite with_evidence_count by (exact security_header_names_nodup || exact Hin).
    now destruct (header_in h (headers r)). }
  split; [|split; [|split; [|split; [|split; [|split; [|split]]]]]].
  8: { intros v hs. reflexivity. }
  - subst o. now rewrite (check_security_headers_runs P url cs r Hn).
  - reflexivity.
  - exact Hfs.
  - exact Hcount.
  - intros f Hin. rewrite Hfs in Hin. apply in_map_iff in Hin as [h [<- _]].
    reflexivity.
  - intros Hsts.
    assert (Hin : In (txt "Strict-Transport-Security") names) by (now left).
    specialize (Hcount _ Hin). rewrite Hsts in Hcount.
    now apply length_zero_iff_nil.
  - intros Hall. rewrite Hfs, length_map. unfold absent_headers.
    rewrite filter_all; [reflexivity|].
    intros h Hin. now rewrite (Hall h Hin).
Qed.

(** ** The matcher finds matches *)

Lemma orelse_some {A} (a b : option A) x :
  orelse a b = Some x -> a = Some x \/ b = Some x.
Proof. destruct a; simpl; auto. Qed.

Lemma rep_sound g p caps k : forall s n prev x,
  rep g n p caps prev s k = Some x ->
  exists cs t, s = cs ++ t /\ forallb p cs = true /\ n <= length cs /\
               k (MState (prev_after prev cs) t caps) = Some x.
Proof.
  induction s as [|c s IH]; intros n prev x H.
  - destruct n; simpl in H; [|discriminate].
    exists [], []. repeat split; auto.
    destruct g; simpl in H; [exact H|].
    apply orelse_some in H as [H|H]; [exact H|discriminate].
  - assert (Hmore : forall n',
        (if p c then rep g n' p caps (Some c) s k else None) = Some x ->
        exists cs t, c :: s = cs ++ t /\ forallb p cs = true /\
                     S n' <= length cs /\
                     k (MState (prev_after prev cs) t caps) = Some x).
    { intros n' Hm. destruct (p c) eqn:Hp; [|discriminate].
      apply IH in Hm as (cs & t & -> & Hall & Hlen & Hk).
      exists (c :: cs), t. repeat split; simpl; auto.
      - now rewrite Hp.
      - lia. }
    destruct n as [|n]; cbn [rep pred] in H.
    + destruct g; apply orelse_some in H as [H|H].
      * apply Hmore in H as (cs & t & ? & ? & ? & ?).
        exists cs, t. repeat split; auto. lia.
      * exists [], (c :: s). repeat split; auto.
      * exists [], (c :: s). repeat split; auto.
      * apply Hmore in H as (cs & t & ? & ? & ? & ?).
        exists cs, t. repeat split; auto. lia.
    + now apply Hmore.
Qed.

Lemma rmatch_sound r : forall st k x,
  rmatch r st k = Some x -> exists st', Matches r st st' /\ k st' = Some x.
Proof.
  induction r as [|p|a IHa b IHb|a IHa b IHb|g n p|i a IHa|w];
    intros st k x H; cbn [rmatch] in H.
  - exists st. split; [constructor | exact H].
  - destruct (m_rest st) as [|c t] eqn:E; [discriminate|].
    destruct (p c) eqn:Hp; [|discriminate].
    eexists. split; [|exact H]. now constructor.
  - apply IHa in H as (st1 & H1 & H).
    apply IHb in H as (st2 & H2 & H).
    exists st2. split; [econstructor; eassumption | exact H].
  - apply orelse_some in H as [H|H].
    + apply IHa in H as (st' & H1 & H). exists st'. split; [now apply MAltL|exact H].
    + apply IHb in H as (st' & H1 & H). exists st'. split; [now apply MAltR|exact H].
  - apply rep_sound in H as (cs & t & E & Hall & Hlen & H).
    eexists. split; [|exact H]. now constructor.
  - apply IHa in H as (st' & H1 & H).
    eexists. split; [|exact H]. now constructor.
  - destruct (at_boundary w st) eqn:E; [|discriminate].
    exists st. split; [now constructor | exact H].
Qed.

Lemma firstn_span {A} (cs t : list A) :
  firstn (length (cs ++ t) - length t) (cs ++ t) = cs.
Proof.
  rewrite length_app, Nat.add_sub. rewrite firstn_app, Nat.sub_diag.
  rewrite firstn_all. simpl. apply app_nil_r.
Qed.

Lemma matches_span r st st' :
  Matches r st st' -> exists cs, m_rest st = cs ++ m_rest st' /\ lang r cs.
Proof.
  induction 1 as [st | p c t st E Hp | a b st st1 st2 _ [c1 [E1 L1]] _ [c2 [E2 L2]]
                 | a b st st' _ [cs [E L]] | a b st st' _ [cs [E L]]
                 | g n p st cs t E Hall Hlen | i a st st' _ [cs [E L]] | w st Hb].
  - exists []. split; reflexivity.
  - exists [c]. split; [exact E|]. exists c. auto.
  - exists (c1 ++ c2). split.
    + rewrite E1, E2. apply app_assoc.
    + exists c1, c2. auto.
  - exists cs. split; [exact E|]. now left.
  - exists cs. split; [exact E|]. now right.
  - exists cs. split; [exact E|]. split; assumption.
  - exists cs. split; [exact E | exact L].
  - exists []. split; reflexivity.
Qed.

Lemma matches_group_free r st st' :
  group_free r = true -> Matches r st st' -> m_caps st' = m_caps st.
Proof.
  intros Hg H. induction H; cbn [group_free] in Hg;
    try apply andb_true_iff in Hg as [Hg1 Hg2];
    try reflexivity; try discriminate; auto.
  rewrite IHMatches2, IHMatches1; auto.
Qed.

Lemma matches_group i a st st2 :
  Matches (Grp i a) st st2 ->
  exists st1 cs, Matches a st st1 /\ m_rest st = cs ++ m_rest st1 /\
                 lang a cs /\ st2 = set_cap i cs st1.
Proof.
  intros H. inversion H as [| | | | | | i' a' st' st1 Ha |]; subst.
  destruct (matches_span _ _ _ Ha) as [cs [E L]].
  exists st1, cs. repeat split; auto.
  rewrite E. now rewrite firstn_span.
Qed.

Lemma matches_seq a b st st2 :
  Matches (Seq a b) st st2 ->
  exists st1, Matches a st st1 /\ Matches b st1 st2.
Proof. intros H. inversion H; subst. eauto. Qed.

Lemma match_at_sound r prev s m :
  match_at r prev s = Some m ->
  exists st', Matches r (MState prev s []) st' /\ groups m = m_caps st'.
Proof.
  unfold match_at. intros H.
  destruct (rmatch r (MState prev s []) Some) as [st|] eqn:E; [|discriminate].
  apply rmatch_sound in E as (st' & HM & Hk). inversion Hk; subst st'.
  inversion H; subst m. exists st. split; [exact HM | reflexivity].
Qed.

Lemma scan_sound r m : forall s prev skip,
  In m (scan r prev s skip) -> exists prev' s', match_at r prev' s' = Some m.
Proof.
  induction s as [|c s IH]; intros prev skip Hin.
  - destruct skip; cbn [scan] in Hin; [|destruct Hin].
    destruct (match_at r prev []) as [m'|] eqn:E; [|destruct Hin].
    destruct Hin as [<-|[]]. eauto.
  - destruct skip; cbn [scan] in Hin; [|eauto].
    destruct (match_at r prev (c :: s)) as [m'|] eqn:E; [|eauto].
    destruct Hin as [<-|Hin]; eauto.
Qed.

(** ** What the secret pattern captures *)

Lemma lower_az_bounds x : is_lower_az x = true -> (97 <= x <= 122)%N.
Proof.
  unfold is_lower_az, in_range. intros H.
  apply andb_true_iff in H as [H1 H2].
  apply N.leb_le in H1. apply N.leb_le in H2. lia.
Qed.

Lemma lower_char_fixes_lower x : is_lower_az x = true -> lower_char x = x.
Proof.
  intros H. apply lower_az_bounds in H. unfold lower_char, is_upper_az, in_range.
  replace (x <=? 90)%N with false by (symmetry; apply N.leb_gt; lia).
  replace (192 <=? x)%N with false by (symmetry; apply N.leb_gt; lia).
  now rewrite andb_false_r.
Qed.

(** what a letter of a pattern accepts under [re.IGNORECASE] folds to
    that letter *)
Lemma chr_i_fold x c :
  is_lower_az (ch x) = true -> chr_i x c = true -> fold_char c = ch x.
Proof.
  intros Hx H. unfold chr_i in H.
  rewrite (lower_char_fixes_lower _ Hx) in H.
  apply lower_az_bounds in Hx.
  apply orb_true_iff in H as [H|H].
  - apply andb_true_iff in H as [H1 H2]. apply eqc_eq in H2.
    unfold fold_char. now rewrite H1.
  - unfold folded in H.
    repeat match type of H with
           | context [(ch x =? ?n)%N] =>
               destruct (N.eqb_spec (ch x) n) as [E|_];
               [try lia; rewrite E; cbn [existsb] in H;
                repeat (apply orb_true_iff in H as [H|H];
                        [apply eqc_eq in H; subst c; reflexivity|]);
                discriminate|]
           end.
    discriminate.
Qed.

Lemma lang_lit_i s : forall cs,
  forallb (fun a => is_lower_az (ch a)) (list_ascii_of_string s) = true ->
  lang (lit_i s) cs -> map fold_char cs = txt s.
Proof.
  induction s as [|x s IH]; intros cs Hs H.
  - simpl in H. now subst.
  - cbn [list_ascii_of_string forallb] in Hs.
    apply andb_true_iff in Hs as [Hx Hs].
    destruct s as [|y s].
    + simpl in H. destruct H as [c [-> Hc]]. cbn.
      now rewrite (chr_i_fold x c Hx Hc).
    + change (lit_i (String x (String y s)))
        with (Seq (Cls (chr_i x)) (lit_i (String y s))) in H.
      destruct H as (c1 & c2 & -> & [c [-> Hc]] & H2).
      cbn [app map]. rewrite (chr_i_fold x c Hx Hc).
      change (txt (String x (String y s))) with (ch x :: txt (String y s)).
      f_equal. now apply IH.
Qed.

(** the key name of a match, folded as [re.IGNORECASE] folds it, is one
    of the six names *)
Lemma lang_secret_key k :
  lang secret_key_re k -> In (map fold_char k) secret_key_names.
Proof.
  unfold secret_key_re. intros [H|[H|[H|H]]].
  - cbn [seqs] in H. destruct H as (c1 & c23 & -> & H1 & c2 & c3 & -> & H2 & H3).
    apply lang_lit_i in H1; [|reflexivity].
    apply lang_lit_i in H3; [|reflexivity].
    rewrite !map_app, H1, H3.
    destruct H2 as [[c [-> Hc]]| ->].
    + unfold one_of in Hc. cbn [txt list_ascii_of_string map existsb] in Hc.
      apply orb_true_iff in Hc as [Hc|Hc];
        [|apply orb_true_iff in Hc as [Hc|Hc]; [|discriminate]];
        apply eqc_eq in Hc; subst c; vm_compute; auto 8.
    + vm_compute. auto 8.
  - apply lang_lit_i in H; [|reflexivity]. rewrite H. vm_compute. auto 8.
  - apply lang_lit_i in H; [|reflexivity]. rewrite H. vm_compute. auto 8.
  - apply lang_lit_i in H; [|reflexivity]. rewrite H. vm_compute. auto 8.
Qed.

Lemma secret_key_short k :
  In (map fold_char k) secret_key_names -> length k <= 8.
Proof.
  intros H. rewrite <- (length_map fold_char k).
  cbn in H. repeat (destruct H as [<-|H]; [cbn; lia|]). destruct H.
Qed.

Lemma secret_match st st' :
  Matches secret_re st st' ->
  exists k v, m_caps st' = (2, v) :: (1, k) :: m_caps st /\
              lang secret_key_re k /\
              forallb not_quote v = true /\ 20 <= length v.
Proof.
  unfold secret_re. cbn [seqs]. intros H.
  apply matches_seq in H as (s1 & H1 & H).
  apply matches_seq in H as (s2 & H2 & H).
  apply matches_seq in H as (s3 & H3 & H).
  apply matches_seq in H as (s4 & H4 & H).
  apply matches_seq in H as (s5 & H5 & H).
  apply matches_seq in H as (s6 & H6 & H).
  apply matches_seq in H as (s7 & H7 & H8).
  apply matches_group in H1 as (s1' & k & Hk & _ & Lk & ->).
  apply matches_group in H7 as (s7' & v & Hv & _ & [Lv1 Lv2] & ->).
  apply matches_group_free in H2; [|reflexivity].
  apply matches_group_free in H3; [|reflexivity].
  apply matches_group_free in H4; [|reflexivity].
  apply matches_group_free in H5; [|reflexivity].
  apply matches_group_free in H6; [|reflexivity].
  apply matches_group_free in H8; [|reflexivity].
  apply matches_group_free in Hv; [|reflexivity].
  assert (Hkc : m_caps s1' = m_caps st).
  { revert Hk. clear. unfold secret_key_re. intros H.
    apply matches_group_free in H; [exact H | reflexivity]. }
  exists k, v. repeat split; auto.
  rewrite H8. cbn [set_cap m_caps] in *. congruence.
Qed.

(** the pairs [re.findall] returns for the secret pattern *)
Lemma secret_findall html kv :
  In kv (findall2 secret_re html) ->
  In (map fold_char (fst kv)) secret_key_names /\
  forallb not_quote (snd kv) = true /\ 20 <= length (snd kv).
Proof.
  unfold findall2, finditer. intros H.
  apply in_map_iff in H as (m & <- & Hin).
  apply scan_sound in Hin as (prev & s & Hm).
  apply match_at_sound in Hm as (st' & HM & Hg).
  apply secret_match in HM as (k & v & Hc & Lk & Hv1 & Hv2).
  unfold group. rewrite Hg, Hc. cbn [group_in Nat.eqb fst snd m_caps].
  split; [now apply lang_secret_key | auto].
Qed.

(** ** Invariants of the printed lines *)

Section Emits.

Variable Q : Line -> Prop.

Lemma emits_ret {A} (a : A) : emits Q (ret a).
Proof. intros cs. constructor. Qed.

Lemma emits_raise {A} e : emits Q (@raise A e).
Proof. intros cs. constructor. Qed.

Lemma emits_lift {A} (x : exn + A) : emits Q (lift x).
Proof. destruct x; [apply emits_raise | apply emits_ret]. Qed.

Lemma emits_print l : Q l -> emits Q (print l).
Proof. intros H cs. simpl. auto. Qed.

Lemma emits_bind {A B} (m : M A) (f : A -> M B) :
  emits Q m -> (forall a, emits Q (f a)) -> emits Q (bind m f).
Proof.
  intros Hm Hf cs. unfold bind. specialize (Hm cs).
  destruct (m cs) as [[a|e] cs' o]; cbn [res calls out] in *.
  - apply Forall_app. split; [exact Hm | apply Hf].
  - exact Hm.
Qed.

Lemma emits_try {A} (m : M A) h :
  emits Q m -> (forall e m', h e = Some m' -> emits Q m') ->
  emits Q (try_except m h).
Proof.
  intros Hm Hh cs. unfold try_except. specialize (Hm cs).
  destruct (m cs) as [[a|e] cs' o]; cbn [res calls out] in *; [exact Hm|].
  destruct (h e) as [m'|] eqn:E; cbn [out]; [|exact Hm].
  apply Forall_app. split; [exact Hm | now apply (Hh e m')].
Qed.

Lemma emits_when b m : emits Q m -> emits Q (when b m).
Proof. destruct b; [auto | intros _; apply emits_ret]. Qed.

Lemma emits_for_each {X} (xs : list X) body :
  (forall x, In x xs -> emits Q (body x)) -> emits Q (for_each xs body).
Proof.
  induction xs as [|x xs IH]; intros H; cbn [for_each].
  - apply emits_ret.
  - apply emits_bind; [apply H; now left|].
    intros _. apply IH. intros y Hy. apply H. now right.
Qed.

Lemma emits_requests_get P url t a : emits Q (requests_get P url t a).
Proof. intros cs. unfold requests_get. destruct (net P cs _); constructor. Qed.

Lemma emits_banner t :
  Q LRuleNl -> Q (LTitle t) -> Q LRule -> emits Q (banner t).
Proof. intros H1 H2 H3 cs. simpl. auto. Qed.

Lemma emits_lines {A} (m : M A) ls :
  (forall cs, out (m cs) = ls) -> Forall Q ls -> emits Q m.
Proof. intros H Hl cs. now rewrite H. Qed.

End Emits.

Lemma emits_weaken {A} (Q1 Q2 : Line -> Prop) (m : M A) :
  (forall l, Q1 l -> Q2 l) -> emits Q1 m -> emits Q2 m.
Proof. intros H Hm cs. eapply Forall_impl; [exact H | apply Hm]. Qed.

(** ** The steps of analyze_html_content *)

Lemma for_each_print_map {X} (g : X -> Line) (body : X -> M unit) xs cs :
  (forall x, body x = print (g x)) ->
  for_each xs body cs = Outcome (Done tt) cs (map g xs).
Proof.
  intros H. revert cs. induction xs as [|x xs IH]; intros cs; cbn [for_each map].
  - reflexivity.
  - rewrite H. erewrite bind_done by reflexivity. now rewrite IH.
Qed.

Lemma report_comment_prints ic : report_comment ic = print (comment_line ic).
Proof.
  destruct ic as [i c]. unfold report_comment, comment_line. cbn [fst snd].
  now destruct (has_keyword (clean c)).
Qed.

Lemma check_comments_runs html cs :
  check_comments html cs = Outcome (Done tt) cs (comment_lines html).
Proof.
  unfold check_comments, comment_lines.
  destruct (findall1 comment_re html) as [|c comments]; [reflexivity|].
  cbn [nonempty when]. erewrite bind_done by reflexivity.
  rewrite (for_each_print_map comment_line) by apply report_comment_prints.
  reflexivity.
Qed.

Lemma report_secret_prints kv :
  report_secret kv = print (LSecret (fst kv) (slice_to 20 (snd kv))).
Proof. now destruct kv. Qed.

Lemma check_secrets_runs html cs :
  check_secrets html cs = Outcome (Done tt) cs (secret_lines html).
Proof.
  unfold check_secrets, secret_lines.
  destruct (findall2 secret_re html) as [|kv kvs]; [reflexivity|].
  cbn [nonempty when]. erewrite bind_done by reflexivity.
  rewrite (for_each_print_map (fun kv => LSecret (fst kv) (slice_to 20 (snd kv))))
    by apply report_secret_prints.
  reflexivity.
Qed.

Lemma clean_short c : length (clean c) <= 100.
Proof. unfold clean, slice_to. apply firstn_le_length. Qed.

Lemma emits_comments html :
  emits (stage_line html AtComments) (check_comments html).
Proof.
  apply emits_lines with (ls := comment_lines html).
  - intros cs. now rewrite check_comments_runs.
  - unfold comment_lines. destruct (nonempty _); constructor; [exact I|].
    apply Forall_forall. intros l Hl. apply in_map_iff in Hl as [[i c] [<- _]].
    unfold comment_line. cbn [fst snd].
    destruct (has_keyword (clean c)); cbn; [apply clean_short | exact I].
Qed.

Lemma emits_inline html :
  emits (stage_line html AtInline) (check_inline_scripts html).
Proof.
  unfold check_inline_scripts. apply emits_bind; [now apply emits_print|].
  intros _. apply emits_when. now apply emits_print.
Qed.

Lemma emits_external P html :
  emits (stage_line html AtExternal) (check_external_scripts P html).
Proof.
  unfold check_external_scripts. apply emits_when.
  apply emits_bind; [now apply emits_print|]. intros _.
  apply emits_for_each. intros s _. unfold report_external.
  apply emits_bind; [apply emits_lift|]. intros p. now apply emits_print.
Qed.

Lemma emits_forms html :
  emits (stage_line html AtForms) (check_forms html).
Proof.
  unfold check_forms. apply emits_when.
  apply emits_bind; [now apply emits_print|]. intros _.
  apply emits_for_each. intros [i form] _. unfold report_form.
  apply emits_bind; [apply emits_when; now apply emits_print|]. intros _.
  apply emits_when. destruct (search action_re form);
    [now apply emits_print | apply emits_ret].
Qed.

Lemma emits_emails P html :
  emits (stage_line html AtEmails) (check_emails P html).
Proof.
  unfold check_emails. apply emits_when.
  apply emits_bind; [now apply emits_print|]. intros _.
  apply emits_for_each. intros e _. now apply emits_print.
Qed.

Lemma emits_secrets html :
  emits (stage_line html AtSecrets) (check_secrets html).
Proof.
  apply emits_lines with (ls := secret_lines html).
  - intros cs. now rewrite check_secrets_runs.
  - unfold secret_lines.
    destruct (nonempty _); constructor; [exact I|].
    apply Forall_forall. intros l Hl. apply in_map_iff in Hl as [kv [<- Hin]].
    exists kv. auto.
Qed.

Lemma emits_stage {A} html s among (m : M A) :
  In s among -> emits (stage_line html s) m -> emits (stages_line html among) m.
Proof.
  intros Hin. apply emits_weaken. intros l Hl. exists s. auto.
Qed.

(** the steps after the comments *)
Lemma emits_after_comments P html :
  emits (stages_line html [AtInline; AtExternal; AtForms; AtEmails; AtSecrets])
    (check_inline_scripts html ;; check_external_scripts P html ;;
     check_forms html ;; check_emails P html ;; check_secrets html).
Proof.
  apply emits_bind;
    [eapply emits_stage; [|apply emits_inline]; cbn; auto | intros _].
  apply emits_bind;
    [eapply emits_stage; [|apply emits_external]; cbn; auto | intros _].
  apply emits_bind;
    [eapply emits_stage; [|apply emits_forms]; cbn; auto | intros _].
  apply emits_bind;
    [eapply emits_stage; [|apply emits_emails]; cbn; auto | intros _].
  eapply emits_stage; [|apply emits_secrets]. cbn; auto 6.
Qed.

(** ** Sensitive comments *)

Lemma comment_lines_findings_from k xs :
  flat_map (line_findings SensitiveComment) (map comment_line (enumerate k xs))
  = map comment_finding (filter has_keyword (map clean xs)).
Proof.
  revert k. induction xs as [|x xs IH]; intros k; [reflexivity|].
  cbn [enumerate map flat_map filter]. rewrite IH.
  unfold comment_line. cbn [fst snd].
  destruct (has_keyword (clean x)); reflexivity.
Qed.

Lemma comment_lines_findings html :
  flat_map (line_findings SensitiveComment) (comment_lines html)
  = map comment_finding
        (filter has_keyword (map clean (firstn 5 (findall1 comment_re html)))).
Proof.
  unfold comment_lines.
  destruct (findall1 comment_re html) as [|c comments] eqn:E; [reflexivity|].
  cbn [nonempty flat_map]. rewrite comment_lines_findings_from. reflexivity.
Qed.

Lemma silent_after_comments html l :
  stages_line html [AtInline; AtExternal; AtForms; AtEmails; AtSecrets] l ->
  silent_for SensitiveComment l.
Proof.
  intros (s & Hin & Hl). unfold silent_for.
  destruct s, l; cbn in Hl; try contradiction; try reflexivity;
    cbn in Hin; intuition discriminate.
Qed.

Lemma flat_map_silent c ls :
  Forall (silent_for c) ls -> flat_map (line_findings c) ls = [].
Proof.
  intros H. apply flat_map_none. now apply Forall_forall.
Qed.

Lemma analyze_html_content_out P r cs :
  ok r = true ->
  out (analyze_html_content P (Some r) cs)
  = banner_lines TitleHtml ++ comment_lines (text r)
    ++ out ((check_inline_scripts (text r) ;; check_external_scripts P (text r) ;;
             check_forms (text r) ;; check_emails P (text r) ;;
             check_secrets (text r)) cs).
Proof.
  intros Hok. unfold analyze_html_content. rewrite Hok.
  erewrite bind_done by apply banner_runs. cbn [out]. f_equal.
  unfold analyze_html. erewrite bind_done by apply check_comments_runs.
  reflexivity.
Qed.

(** C7, as amended.  For a response that is truthy, the SensitiveComment
    findings of the HTML analysis are, in order, those of the first five
    HTML comments whose text, stripped of surrounding whitespace and cut to
    a hundred characters, contains in any letter case one of password,
    key, secret, token, api; the evidence is that stripped and cut text, at
    Warning severity; a comment among the first five without a keyword
    gives no finding.  The comment [api_key leaked] gives one finding, the
    comment [layout fix] none. *)
Theorem C7_sensitive_comments (P : Platform) (r : Response) (cs : list Request) :
  ok r = true ->
  let comments := findall1 comment_re (text r) in
  let fs := of_category SensitiveComment
              (findings (out (analyze_html_content P (Some r) cs))) in
  fs = map comment_finding (filter has_keyword (map clean (firstn 5 comments))) /\
  (forall f, In f fs -> severity f = Warning /\ length (evidence f) <= 100) /\
  (forall c, In c (firstn 5 comments) ->
     (In (comment_finding (clean c)) fs <-> has_keyword (clean c) = true)) /\
  (text r = txt "<!-- api_key leaked -->" ->
     fs = [comment_finding (txt "api_key leaked")]) /\
  (text r = txt "<!-- layout fix -->" -> fs = []).
Proof.
  intros Hok comments fs.
  assert (Hfs : fs = map comment_finding
                       (filter has_keyword (map clean (firstn 5 comments)))).
  { subst fs. rewrite findings_linewise by discriminate.
    rewrite (analyze_html_content_out P r cs Hok), !flat_map_app.
    rewrite comment_lines_findings.
    rewrite (flat_map_silent SensitiveComment (out _)).
    - now rewrite app_nil_r.
    - eapply Forall_impl; [apply silent_after_comments|].
      apply emits_after_comments. }
  split; [exact Hfs|]. split; [|split; [|split]].
  - intros f Hin. rewrite Hfs in Hin. apply in_map_iff in Hin as [c [<- Hc]].
    apply filter_In in Hc as [Hc _]. apply in_map_iff in Hc as [c' [<- _]].
    split; [reflexivity | apply clean_short].
  - intros c Hc. rewrite Hfs. split.
    + intros Hin. apply in_map_iff in Hin as [x [Hx Hin]].
      apply filter_In in Hin as [_ Hk]. inversion Hx. congruence.
    + intros Hk. apply in_map. apply filter_In. split; [|exact Hk].
      now apply in_map.
  - intros Ht. rewrite Hfs. subst comments. rewrite Ht. vm_compute. reflexivity.
  - intros Ht. rewrite Hfs. subst comments. rewrite Ht. vm_compute. reflexivity.
Qed.

(** ** Steps that only print *)

Lemma prints_only_ret : prints_only (ret tt).
Proof. intros cs. reflexivity. Qed.

Lemma prints_only_print l : prints_only (print l).
Proof. intros cs. reflexivity. Qed.

Lemma prints_only_seq (m f : M unit) :
  prints_only m -> prints_only f -> prints_only (m ;; f).
Proof.
  intros Hm Hf cs. unfold bind. rewrite (Hm cs), (Hm []). cbn [res calls out].
  rewrite (Hf cs), (Hf []). reflexivity.
Qed.

Lemma prints_only_when b m : prints_only m -> prints_only (when b m).
Proof. destruct b; [auto | intros _; apply prints_only_ret]. Qed.

Lemma prints_only_for_each {X} (xs : list X) body :
  (forall x, In x xs -> prints_only (body x)) -> prints_only (for_each xs body).
Proof.
  induction xs as [|x xs IH]; intros H; cbn [for_each].
  - apply prints_only_ret.
  - apply prints_only_seq; [apply H; now left|].
    apply IH. intros y Hy. apply H. now right.
Qed.

Lemma out_seq (m f : M unit) :
  prints_only m -> out ((m ;; f) []) = out (m []) ++ out (f []).
Proof. intros Hm. unfold bind. rewrite (Hm []). reflexivity. Qed.

Lemma prints_only_lines (m : M unit) ls :
  (forall cs, m cs = Outcome (Done tt) cs ls) -> prints_only m.
Proof. intros H cs. now rewrite (H cs), (H []). Qed.

Lemma prints_only_comments html : prints_only (check_comments html).
Proof. eapply prints_only_lines. apply check_comments_runs. Qed.

Lemma prints_only_secrets html : prints_only (check_secrets html).
Proof. eapply prints_only_lines. apply check_secrets_runs. Qed.

Lemma prints_only_inline html : prints_only (check_inline_scripts html).
Proof.
  unfold check_inline_scripts.
  apply prints_only_seq; [apply prints_only_print|].
  apply prints_only_when, prints_only_print.
Qed.

Lemma scripts_parse_in P html s :
  scripts_parse P html = true ->
  In s (firstn 10 (findall1 external_script_re html)) ->
  exists p, urlparse P s = inr p.
Proof.
  unfold scripts_parse. intros H Hs. rewrite forallb_forall in H.
  specialize (H s Hs). unfold parses in H.
  destruct (urlparse P s) as [e|p]; [discriminate | now exists p].
Qed.

Lemma prints_only_external P html :
  scripts_parse P html = true -> prints_only (check_external_scripts P html).
Proof.
  intros Hp. unfold check_external_scripts. apply prints_only_when.
  apply prints_only_seq; [apply prints_only_print|].
  apply prints_only_for_each. intros s Hs.
  destruct (scripts_parse_in P html s Hp Hs) as [p Hs'].
  unfold report_external. rewrite Hs'.
  intros cs. reflexivity.
Qed.

Lemma prints_only_forms html : prints_only (check_forms html).
Proof.
  unfold check_forms. apply prints_only_when.
  apply prints_only_seq; [apply prints_only_print|].
  apply prints_only_for_each. intros [i form] _. unfold report_form.
  apply prints_only_seq; [apply prints_only_when, prints_only_print|].
  apply prints_only_when. destruct (search action_re form);
    [apply prints_only_print | apply prints_only_ret].
Qed.

Lemma prints_only_emails P html : prints_only (check_emails P html).
Proof.
  unfold check_emails. apply prints_only_when.
  apply prints_only_seq; [apply prints_only_print|].
  apply prints_only_for_each. intros e _. apply prints_only_print.
Qed.

Lemma prints_only_analyze_html P html :
  scripts_parse P html = true -> prints_only (analyze_html P html).
Proof.
  intros Hp. unfold analyze_html.
  apply prints_only_seq; [apply prints_only_comments|].
  apply prints_only_seq; [apply prints_only_inline|].
  apply prints_only_seq; [now apply prints_only_external|].
  apply prints_only_seq; [apply prints_only_forms|].
  apply prints_only_seq; [apply prints_only_emails|].
  apply prints_only_secrets.
Qed.

(** the lines of the analysis, step by step, when every script address
    parses *)
Lemma analyze_html_lines P html :
  scripts_parse P html = true ->
  out (analyze_html P html [])
  = comment_lines html
    ++ out (check_inline_scripts html [])
    ++ out (check_external_scripts P html [])
    ++ out (check_forms html [])
    ++ out (check_emails P html [])
    ++ secret_lines html.
Proof.
  intros Hp. unfold analyze_html.
  rewrite out_seq by apply prints_only_comments.
  rewrite out_seq by apply prints_only_inline.
  rewrite out_seq by now apply prints_only_external.
  rewrite out_seq by apply prints_only_forms.
  rewrite out_seq by apply prints_only_emails.
  now rewrite check_comments_runs, check_secrets_runs.
Qed.

Lemma analyze_html_content_runs P r cs :
  ok r = true -> scripts_parse P (text r) = true ->
  analyze_html_content P (Some r) cs
  = Outcome (Done tt) cs (banner_lines TitleHtml ++ out (analyze_html P (text r) [])).
Proof.
  intros Hok Hp. unfold analyze_html_content. rewrite Hok.
  erewrite bind_done by apply banner_runs.
  now rewrite (prints_only_analyze_html _ _ Hp cs).
Qed.

(** ** A script address that [urlparse] rejects *)

Lemma report_external_loop_stops P html ss cs :
  forallb (parses P) ss = false ->
  exists e ls,
    for_each ss (report_external P) cs = Outcome (Raised e) cs ls /\
    Forall (stage_line html AtExternal) ls.
Proof.
  induction ss as [|s ss IH]; cbn [forallb]; [discriminate|].
  intros H. unfold parses at 1 in H. cbn [for_each].
  destruct (urlparse P s) as [e|p] eqn:E.
  - exists e, []. split; [|constructor].
    apply bind_raised. unfold report_external. apply bind_raised.
    now rewrite E.
  - cbn [andb] in H. destruct (IH H) as (e & ls & Hr & Hl).
    set (l := LExternal (if nonempty (netloc p) then netloc p
                         else txt "relative path") (slice_to 60 s)).
    exists e, (l :: ls). split.
    + rewrite (bind_done _ _ cs tt cs [l]).
      * rewrite Hr. reflexivity.
      * unfold report_external. rewrite E. reflexivity.
    + constructor; [exact I | exact Hl].
Qed.

Lemma check_external_scripts_stops P html cs :
  scripts_parse P html = false ->
  exists e ls,
    check_external_scripts P html cs = Outcome (Raised e) cs ls /\
    Forall (stage_line html AtExternal) ls.
Proof.
  unfold scripts_parse, check_external_scripts. intros H.
  destruct (findall1 external_script_re html) as [|s ss] eqn:Ef;
    [discriminate|].
  cbn [nonempty when].
  destruct (report_external_loop_stops P html _ cs H) as (e & ls & Hr & Hl).
  exists e, (LExternalHeading (length (s :: ss)) :: ls). split.
  - rewrite (bind_done _ _ cs tt cs [LExternalHeading (length (s :: ss))])
      by reflexivity.
    rewrite Hr. reflexivity.
  - constructor; [exact I | exact Hl].
Qed.

(** the analysis then ends with the error, after the lines of the
    comments, of the inline scripts and of the scripts before the one
    rejected *)
Lemma analyze_html_content_stops P r cs :
  ok r = true -> scripts_parse P (text r) = false ->
  exists e ls,
    analyze_html_content P (Some r) cs
    = Outcome (Raised e) cs
        (banner_lines TitleHtml ++ comment_lines (text r)
         ++ out (check_inline_scripts (text r) []) ++ ls) /\
    Forall (stage_line (text r) AtExternal) ls.
Proof.
  intros Hok Hp.
  destruct (check_external_scripts_stops P (text r) cs Hp) as (e & ls & Hr & Hl).
  exists e, ls. split; [|exact Hl].
  unfold analyze_html_content. rewrite Hok.
  rewrite (bind_done _ _ cs tt cs (banner_lines TitleHtml)) by apply banner_runs.
  unfold analyze_html.
  rewrite (bind_done _ _ cs tt cs (comment_lines (text r)))
    by apply check_comments_runs.
  rewrite (bind_done _ _ cs tt cs (out (check_inline_scripts (text r) [])))
    by apply prints_only_inline.
  rewrite (bind_raised _ _ cs e cs ls) by exact Hr.
  reflexivity.
Qed.

(** ** Secrets in the page *)

Lemma silent_before_secrets html s l :
  s <> AtSecrets -> stage_line html s l -> silent_for ExposedSecret l.
Proof.
  intros Hs Hl. unfold silent_for.
  destruct s, l; cbn in Hl; try contradiction; try reflexivity; congruence.
Qed.

Lemma silent_stage_out {A} html s (m : M A) cs :
  s <> AtSecrets -> emits (stage_line html s) m ->
  flat_map (line_findings ExposedSecret) (out (m cs)) = [].
Proof.
  intros Hs Hm. apply flat_map_silent.
  eapply Forall_impl; [|apply Hm].
  intros l. now apply silent_before_secrets.
Qed.

Lemma secret_lines_findings html :
  flat_map (line_findings ExposedSecret) (secret_lines html)
  = map secret_finding (findall2 secret_re html).
Proof.
  unfold secret_lines.
  destruct (findall2 secret_re html) as [|kv kvs]; [reflexivity|].
  cbn [nonempty]. generalize (kv :: kvs). intros l.
  cbn [flat_map line_findings finding_at app].
  induction l as [|x l IH]; [reflexivity|].
  cbn [map flat_map]. rewrite IH. reflexivity.
Qed.

Lemma slice_cuts (v : str) n : n < length v -> slice_to n v <> v.
Proof.
  intros H E. apply (f_equal (@length char)) in E.
  unfold slice_to in E. rewrite length_firstn in E. lia.
Qed.

Lemma silent_stages ls html s :
  s <> AtSecrets -> Forall (stage_line html s) ls ->
  flat_map (line_findings ExposedSecret) ls = [].
Proof.
  intros Hs H. apply flat_map_silent. eapply Forall_impl; [|exact H].
  intros l. now apply silent_before_secrets.
Qed.

Lemma comment_lines_stage html :
  Forall (stage_line html AtComments) (comment_lines html).
Proof.
  pose proof (emits_comments html []) as Hc.
  now rewrite check_comments_runs in Hc.
Qed.

(** C4, as amended.  For a truthy response, when [urlparse] accepts the
    script addresses listed before the secret scan, the analysis ends
    normally and its ExposedSecret findings are, in order, one per match of
    the secret pattern, at Critical severity, with evidence the key name,
    a colon and the first twenty characters of the value; when [urlparse]
    rejects one of them the analysis ends with that error before the
    scan and reports no secret.  The key name of a match, read as
    [re.IGNORECASE] reads it, is one of api_key, api-key, apikey, token,
    secret, password; the value has at least twenty characters, exactly
    twenty of them are shown, so a longer value is cut.  The page with the
    token of the 26 letters of the alphabet gives exactly one finding,
    which shows the first twenty letters and does not contain the whole
    value. *)
Theorem C4_secret_evidence (P : Platform) (r : Response) (cs : list Request) :
  ok r = true ->
  let keys := findall2 secret_re (text r) in
  let o := analyze_html_content P (Some r) cs in
  let fs := of_category ExposedSecret (findings (out o)) in
  (if scripts_parse P (text r)
   then res o = Done tt /\ fs = map secret_finding keys
   else (exists e, res o = Raised e) /\ fs = []) /\
  (forall f, In f fs -> severity f = Critical) /\
  (forall kv, In kv keys ->
     In (map fold_char (fst kv)) secret_key_names /\
     20 <= length (snd kv) /\
     length (slice_to 20 (snd kv)) = 20 /\
     (20 < length (snd kv) -> slice_to 20 (snd kv) <> snd kv)) /\
  (text r = txt "token=" ++ dq "abcdefghijklmnopqrstuvwxyz" ->
     fs = [Build_Finding ExposedSecret Critical (txt "token: abcdefghijklmnopqrst")]
     /\ contains (txt "abcdefghijklmnopqrstuvwxyz")
                 (txt "token: abcdefghijklmnopqrst") = false).
Proof.
  intros Hok keys o fs.
  assert (Hrun : scripts_parse P (text r) = true ->
                 res o = Done tt /\ fs = map secret_finding keys).
  { intros Hp. subst fs o.
    rewrite (analyze_html_content_runs P r cs Hok Hp). cbn [res out].
    split; [reflexivity|].
    rewrite findings_linewise by discriminate.
    rewrite (analyze_html_lines _ _ Hp), !flat_map_app.
    rewrite secret_lines_findings.
    rewrite (silent_stages (comment_lines (text r)) (text r) AtComments)
      by (discriminate || apply comment_lines_stage).
    rewrite (silent_stage_out (text r) AtInline) by
      (discriminate || apply emits_inline).
    rewrite (silent_stage_out (text r) AtExternal) by
      (discriminate || apply emits_external).
    rewrite (silent_stage_out (text r) AtForms) by
      (discriminate || apply emits_forms).
    rewrite (silent_stage_out (text r) AtEmails) by
      (discriminate || apply emits_emails).
    reflexivity. }
  assert (Hstop : scripts_parse P (text r) = false ->
                  (exists e, res o = Raised e) /\ fs = []).
  { intros Hp. subst fs o.
    destruct (analyze_html_content_stops P r cs Hok Hp) as (e & ls & -> & Hl).
    cbn [res out]. split; [now exists e|].
    rewrite findings_linewise by discriminate.
    rewrite !flat_map_app.
    rewrite (silent_stages (comment_lines (text r)) (text r) AtComments)
      by (discriminate || apply comment_lines_stage).
    rewrite (silent_stage_out (text r) AtInline) by
      (discriminate || apply emits_inline).
    rewrite (silent_stages ls (text r) AtExternal) by (discriminate || exact Hl).
    reflexivity. }
  split; [|split; [|split]].
  - destruct (scripts_parse P (text r)); [now apply Hrun | now apply Hstop].
  - intros f Hin.
    destruct (scripts_parse P (text r)).
    + destruct (Hrun eq_refl) as [_ Hfs]. rewrite Hfs in Hin.
      apply in_map_iff in Hin as [kv [<- _]]. reflexivity.
    + destruct (Hstop eq_refl) as [_ Hfs]. rewrite Hfs in Hin. destruct Hin.
  - intros kv Hin. destruct (secret_findall _ _ Hin) as (Hk & _ & Hlen).
    split; [exact Hk|]. split; [exact Hlen|]. split.
    + unfold slice_to. rewrite length_firstn. lia.
    + apply slice_cuts.
  - intros Ht.
    assert (Hp : scripts_parse P (text r) = true) by (rewrite Ht; reflexivity).
    destruct (Hrun Hp) as [_ Hfs]. rewrite Hfs. subst keys. rewrite Ht.
    split; vm_compute; reflexivity.
Qed.

(** ** Length of the evidence *)

Ltac capped_line :=
  match goal with
  | |- line_capped _ => first [exact I | cbn; intros; discriminate | cbn; intros; lia]
  end.

Ltac plain_line :=
  match goal with
  | |- line_plain _ => split; [capped_line | reflexivity]
  end.

Lemma emits_plain_ssl P url : emits line_plain (check_ssl_tls P url).
Proof.
  unfold check_ssl_tls.
  apply emits_bind; [apply emits_banner; plain_line | intros _].
  apply emits_bind; [apply emits_lift | intros p].
  destruct (eqs (scheme p) (txt "http")).
  - apply emits_bind; [|intros _]; apply emits_print; plain_line.
  - destruct (eqs (scheme p) (txt "https")); [|apply emits_ret].
    apply emits_bind; [apply emits_print; plain_line | intros _].
    apply emits_try.
    + apply emits_bind; [apply emits_requests_get | intros _].
      apply emits_print; plain_line.
    + intros e m' H. destruct (is_ssl_error e); [|discriminate].
      inversion H; subst m'. apply emits_print. plain_line.
Qed.

Lemma sort_headers_plain table hs :
  Forall (fun hd => length (fst hd) <= 100) table ->
  Forall line_plain (fst (sort_headers table hs)) /\
  Forall line_plain (snd (sort_headers table hs)).
Proof.
  induction 1 as [|[h d] table Hh _ [IH1 IH2]]; [split; constructor|].
  cbn [sort_headers]. destruct (sort_headers table hs) as [present missing].
  cbn [fst snd] in *.
  destruct (header_get h hs); cbn [fst snd]; split; auto.
  - constructor; [split; [exact I | reflexivity] | exact IH1].
  - constructor; [|exact IH2]. split; [intros _; exact Hh | reflexivity].
Qed.

Lemma security_header_names_short :
  Forall (fun hd : str * str => length (fst hd) <= 100) security_headers.
Proof. repeat (constructor; [cbn; lia|]). constructor. Qed.

Lemma emits_plain_cookie hs : emits line_plain (check_cookie hs).
Proof.
  unfold check_cookie. destruct (header_get (txt "Set-Cookie") hs);
    [|apply emits_ret].
  repeat (apply emits_bind; [|intros _]);
    try apply emits_when; apply emits_print; plain_line.
Qed.

Lemma emits_plain_headers P url :
  emits line_plain (check_security_headers P url).
Proof.
  unfold check_security_headers.
  apply emits_bind; [apply emits_banner; plain_line | intros _].
  apply emits_try.
  - apply emits_bind; [apply emits_requests_get | intros r].
    destruct (sort_headers_plain security_headers (headers r)
                security_header_names_short) as [H1 H2].
    destruct (sort_headers security_headers (headers r)) as [present missing].
    cbn [fst snd] in *.
    apply emits_bind; [|intros _].
    { apply emits_when. apply emits_bind; [apply emits_print; plain_line|].
      intros _. apply emits_for_each. intros l Hl. apply emits_print.
      revert l Hl. now apply Forall_forall. }
    apply emits_bind; [|intros _].
    { apply emits_when. apply emits_bind; [apply emits_print; plain_line|].
      intros _. apply emits_for_each. intros l Hl. apply emits_print.
      revert l Hl. now apply Forall_forall. }
    apply emits_bind; [apply emits_plain_cookie | intros _]. apply emits_ret.
  - intros e m' H. destruct (is_exception e); [|discriminate].
    inversion H; subst m'.
    apply emits_bind; [apply emits_print; plain_line | intros _].
    apply emits_ret.
Qed.

Lemma exposed_files_in P ps : forall cs f,
  In f (exposed_files P cs ps) -> In f (map fst ps).
Proof.
  induction ps as [|[x u] ps IH]; intros cs f H; [destruct H|].
  cbn [exposed_files] in H. apply in_app_or in H as [H|H].
  - destruct (returns_200 P cs _); [|destruct H].
    destruct H as [<-|[]]. now left.
  - right. eapply IH. exact H.
Qed.

Lemma probes_in P base files f :
  In f (map fst (probes P base files)) -> In f files.
Proof.
  induction files as [|x files IH]; cbn [probes]; [auto|].
  destruct (urljoin P base x); [intros []|].
  cbn [map fst]. intros [<-|H]; [now left | right; auto].
Qed.

Lemma common_files_short f : In f common_files -> length f <= 100.
Proof.
  assert (H : forallb (fun f => length f <=? 100) common_files = true)
    by (vm_compute; reflexivity).
  intros Hin. rewrite forallb_forall in H. apply Nat.leb_le. now apply H.
Qed.

Lemma emits_plain_files P url : emits line_plain (check_common_files P url).
Proof.
  intros cs. unfold check_common_files. rewrite check_files_runs. cbn [out].
  apply Forall_app. split; [repeat (constructor; [plain_line|]); constructor|].
  destruct (join_error P url common_files); [constructor|].
  unfold file_lines.
  apply Forall_app. split; [|repeat (constructor; [plain_line|]); constructor].
  destruct (nonempty _); [|repeat (constructor; [plain_line|]); constructor].
  constructor; [split; [exact I | reflexivity]|].
  apply Forall_forall. intros l Hl. apply in_map_iff in Hl as [f [<- Hf]].
  split; [|reflexivity]. intros _. cbn. apply common_files_short.
  eapply probes_in, exposed_files_in. exact Hf.
Qed.

Lemma stage_line_capped html s l : stage_line html s l -> line_capped l.
Proof.
  intros H. destruct s, l; cbn [stage_line] in H; try contradiction;
    try capped_line.
  destruct H as (kv & Hin & -> & ->).
  destruct (secret_findall _ _ Hin) as (Hk & _ & _).
  apply secret_key_short in Hk. intros _.
  cbn [evidence finding_at]. rewrite !length_app.
  unfold slice_to. rewrite length_firstn.
  cbn [txt list_ascii_of_string map length].
  lia.
Qed.

Lemma emits_stages P html :
  emits (fun l => exists s, stage_line html s l) (analyze_html P html).
Proof.
  unfold analyze_html.
  apply emits_bind.
  { eapply emits_weaken; [|apply emits_comments]. intros l H. eauto. }
  intros _. eapply emits_weaken; [|apply emits_after_comments].
  intros l (s & _ & H). eauto.
Qed.

Lemma emits_capped_html P response :
  emits line_capped (analyze_html_content P response).
Proof.
  unfold analyze_html_content.
  apply emits_bind; [apply emits_banner; capped_line | intros _].
  destruct response as [r|]; [|apply emits_ret].
  destruct (ok r); [|apply emits_ret].
  eapply emits_weaken; [|apply emits_stages].
  intros l [s H]. eapply stage_line_capped. exact H.
Qed.

Lemma emits_plain_disclosure P response :
  emits line_plain (check_information_disclosure P response).
Proof.
  unfold check_information_disclosure.
  apply emits_bind; [apply emits_banner; plain_line | intros _].
  destruct response as [r|]; [|apply emits_ret].
  destruct (ok r); [|apply emits_ret]. unfold disclose.
  apply emits_bind; [|intros _].
  { destruct (header_get (txt "Server") (headers r)); [|apply emits_ret].
    apply emits_bind; [|intros _]; apply emits_print; plain_line. }
  apply emits_bind; [|intros _].
  { destruct (header_get (txt "X-Powered-By") (headers r)); [|apply emits_ret].
    apply emits_bind; [|intros _]; apply emits_print; plain_line. }
  apply emits_when. apply emits_print. plain_line.
Qed.

Lemma emits_plain_recommendations url :
  emits line_plain (generate_recommendations url).
Proof.
  unfold generate_recommendations.
  apply emits_bind; [apply emits_banner; plain_line | intros _].
  apply emits_for_each. intros rec _. apply emits_print. plain_line.
Qed.

Lemma emits_capped_main P typed : emits line_capped (main P typed).
Proof.
  assert (W : forall A (m : M A), emits line_plain m -> emits line_capped m).
  { intros A m. apply emits_weaken. now intros l [H _]. }
  unfold main, run_all_checks.
  apply emits_bind; [apply emits_print; capped_line | intros _].
  apply emits_bind; [apply emits_print; capped_line | intros _].
  apply emits_bind; [apply emits_print; capped_line | intros _].
  apply emits_bind; [|intros _].
  { apply emits_bind; [apply W, emits_plain_ssl | intros _].
    apply emits_bind; [apply W, emits_plain_headers | intros response].
    apply emits_bind; [apply W, emits_plain_files | intros _].
    apply emits_bind; [apply emits_capped_html | intros _].
    apply emits_bind; [apply W, emits_plain_disclosure | intros _].
    apply W, emits_plain_recommendations. }
  apply emits_bind; [apply emits_banner; capped_line | intros _].
  apply emits_bind; [apply emits_print; capped_line | intros _].
  apply emits_bind; [apply emits_print; capped_line | intros _].
  apply emits_print; capped_line.
Qed.

Lemma findings_capped ls :
  Forall line_capped ls ->
  forall f, In f (findings ls) -> capped (category f) = true ->
            length (evidence f) <= 100.
Proof.
  induction 1 as [|l ls Hl _ IH]; intros f Hin Hc; [destruct Hin|].
  cbn [findings] in Hin.
  destruct (finding_at l ls) as [g|] eqn:E; [|now apply IH].
  destruct Hin as [<-|Hin]; [|now apply IH].
  unfold line_capped in Hl.
  destruct l; cbn in E; try discriminate; inversion E; subst g;
    cbn in Hc; try discriminate; cbn in Hl; now apply Hl.
Qed.

(** C5, as amended.  In every run of the audit, every finding of a category
    whose evidence the script cuts or takes from a fixed table
    (HeaderMissing, CookieFlag, ExposedFile, SensitiveComment,
    ExposedSecret) has evidence of at most a hundred characters. *)
Theorem C5_capped_evidence (P : Platform) (typed : str) (f : Finding) :
  In f (findings (out (run (main P typed)))) ->
  capped (category f) = true ->
  length (evidence f) <= 100.
Proof.
  apply findings_capped. apply emits_capped_main.
Qed.

(** ** Two runs under different set orders *)

Lemma agree_refl {A} (m : M A) : agree m m.
Proof. intros cs. auto. Qed.

Lemma agree_bind {A B} (m1 m2 : M A) (f1 f2 : A -> M B) :
  agree m1 m2 -> (forall a, agree (f1 a) (f2 a)) ->
  agree (bind m1 f1) (bind m2 f2).
Proof.
  intros Hm Hf cs. unfold bind. destruct (Hm cs) as (Hr & Hc & Ho).
  destruct (m1 cs) as [r1 c1 o1], (m2 cs) as [r2 c2 o2].
  cbn [res calls out] in *. subst r2 c2.
  destruct r1 as [a|e]; cbn [res calls out].
  - destruct (Hf a c1) as (Hr' & Hc' & Ho').
    rewrite !filter_app, Ho, Ho'. auto.
  - auto.
Qed.

Lemma agree_when b (m1 m2 : M unit) :
  agree m1 m2 -> agree (when b m1) (when b m2).
Proof. destruct b; [auto | intros _; apply agree_refl]. Qed.

Lemma same_set_length (l1 l2 xs : list str) :
  (NoDup l1 /\ forall x, In x l1 <-> In x xs) ->
  (NoDup l2 /\ forall x, In x l2 <-> In x xs) ->
  length l1 = length l2.
Proof.
  intros [N1 H1] [N2 H2]. apply Nat.le_antisymm.
  - apply NoDup_incl_length; [exact N1|]. intros x Hx.
    apply H2. now apply H1.
  - apply NoDup_incl_length; [exact N2|]. intros x Hx.
    apply H1. now apply H2.
Qed.

Lemma order_free_emails es :
  filter order_free (map LEmail es) = [].
Proof. induction es; [reflexivity | exact IHes]. Qed.

Section TwoOrders.

Variable n : list Request -> Request -> exn + Response.
Variable up : str -> exn + ParseResult.
Variable uj : str -> str -> exn + str.
Variables order1 order2 : list str -> list str.
Hypothesis ok1 : set_iter_ok order1.
Hypothesis ok2 : set_iter_ok order2.

Let P1 := Build_Platform n up uj order1.
Let P2 := Build_Platform n up uj order2.

Lemma check_emails_runs P html cs :
  check_emails P html cs =
  Outcome (Done tt) cs
    (let emails := findall0 email_re html in
     if nonempty emails
     then LEmailsHeading (length (set_iter P emails))
          :: map LEmail (firstn 5 (set_iter P emails))
     else []).
Proof.
  unfold check_emails. destruct (findall0 email_re html) as [|e es];
    [reflexivity|].
  cbn [nonempty when]. erewrite bind_done by reflexivity.
  rewrite (for_each_print_map LEmail) by reflexivity. reflexivity.
Qed.

Lemma agree_emails html : agree (check_emails P1 html) (check_emails P2 html).
Proof.
  intros cs. rewrite !check_emails_runs. cbn [res calls out].
  repeat split. cbv zeta.
  destruct (nonempty (findall0 email_re html)); [|reflexivity].
  cbn [filter order_free is_email_line is_versions_line orb negb].
  rewrite !order_free_emails. f_equal. f_equal.
  apply same_set_length with (xs := findall0 email_re html);
    [apply ok1 | apply ok2].
Qed.

Lemma agree_html response :
  agree (analyze_html_content P1 response) (analyze_html_content P2 response).
Proof.
  unfold analyze_html_content.
  apply agree_bind; [apply agree_refl | intros _].
  destruct response as [r|]; [|apply agree_refl].
  destruct (ok r); [|apply agree_refl]. unfold analyze_html.
  apply agree_bind; [apply agree_refl | intros _].
  apply agree_bind; [apply agree_refl | intros _].
  apply agree_bind; [apply agree_refl | intros _].
  apply agree_bind; [apply agree_refl | intros _].
  apply agree_bind; [apply agree_emails | intros _].
  apply agree_refl.
Qed.

Lemma agree_disclosure response :
  agree (check_information_disclosure P1 response)
        (check_information_disclosure P2 response).
Proof.
  unfold check_information_disclosure.
  apply agree_bind; [apply agree_refl | intros _].
  destruct response as [r|]; [|apply agree_refl].
  destruct (ok r); [|apply agree_refl]. unfold disclose.
  apply agree_bind; [apply agree_refl | intros _].
  apply agree_bind; [apply agree_refl | intros _].
  apply agree_when. intros cs. repeat split.
Qed.

Lemma agree_main typed : agree (main P1 typed) (main P2 typed).
Proof.
  unfold main, run_all_checks.
  apply agree_bind; [apply agree_refl | intros _].
  apply agree_bind; [apply agree_refl | intros _].
  apply agree_bind; [apply agree_refl | intros _].
  apply agree_bind; [|intros _; apply agree_refl].
  apply agree_bind; [apply agree_refl | intros _].
  apply agree_bind; [apply agree_refl | intros response].
  apply agree_bind; [apply agree_refl | intros _].
  apply agree_bind; [apply agree_html | intros _].
  apply agree_bind; [apply agree_disclosure | intros _].
  apply agree_refl.
Qed.

(** the response handed to the analysis does not depend on the order *)
Lemma same_response url : response_of P1 url = response_of P2 url.
Proof. reflexivity. Qed.

End TwoOrders.

(** ** The end-to-end scenario *)

Lemma exposed_files_none P ps : forall cs,
  (forall cs' fu, In fu ps ->
     returns_200 P cs' (probe_request (snd fu)) = false) ->
  exposed_files P cs ps = [].
Proof.
  induction ps as [|[f u] ps IH]; intros cs H; [reflexivity|].
  cbn [exposed_files]. pose proof (H cs (f, u) (or_introl eq_refl)) as H0.
  cbn [snd] in H0. rewrite H0.
  apply IH. intros cs' fu Hin. apply H. now right.
Qed.

(** a probed file is one of the list, with the address [urljoin] gives *)
Lemma probes_joined P base files fu :
  In fu (probes P base files) ->
  In (fst fu) files /\ urljoin P base (fst fu) = inr (snd fu).
Proof.
  induction files as [|x files IH]; cbn [probes]; [intros []|].
  destruct (urljoin P base x) as [e|u] eqn:E; [intros []|].
  intros [<-|H]; [split; [now left | exact E]|].
  destruct (IH H) as [H1 H2]. split; [now right | exact H2].
Qed.

Lemma prints_only_disclose P r : prints_only (disclose P r).
Proof.
  unfold disclose.
  apply prints_only_seq.
  { destruct (header_get (txt "Server") (headers r)); [|apply prints_only_ret].
    apply prints_only_seq; apply prints_only_print. }
  apply prints_only_seq.
  { destruct (header_get (txt "X-Powered-By") (headers r));
      [|apply prints_only_ret].
    apply prints_only_seq; apply prints_only_print. }
  apply prints_only_when, prints_only_print.
Qed.

Lemma check_information_disclosure_runs P r cs :
  ok r = true ->
  check_information_disclosure P (Some r) cs
  = Outcome (Done tt) cs (banner_lines TitleDisclosure ++ out (disclose P r [])).
Proof.
  intros Hok. unfold check_information_disclosure. rewrite Hok.
  erewrite bind_done by apply banner_runs.
  now rewrite (prints_only_disclose P r cs).
Qed.

Lemma generate_recommendations_runs url cs :
  generate_recommendations url cs
  = Outcome (Done tt) cs
      (banner_lines TitleRecommend ++ map LRecommendation recommendations).
Proof.
  unfold generate_recommendations.
  erewrite bind_done by apply banner_runs.
  rewrite (for_each_print_map LRecommendation) by reflexivity. reflexivity.
Qed.

Lemma main_runs P typed cs cs' ls :
  run_all_checks P (target_of typed) cs = Outcome (Done tt) cs' ls ->
  main P typed cs
  = Outcome (Done tt) cs'
      ([LPrompt; LStarting (target_of typed); LTime] ++ ls
       ++ banner_lines TitleComplete ++ [LDisclaimer1; LDisclaimer2; LRule]).
Proof.
  intros H. unfold main.
  erewrite bind_done by reflexivity.
  erewrite bind_done by reflexivity.
  erewrite bind_done by reflexivity.
  erewrite bind_done by exact H.
  reflexivity.
Qed.

Lemma main_stops P typed cs cs' ls e :
  run_all_checks P (target_of typed) cs = Outcome (Raised e) cs' ls ->
  main P typed cs
  = Outcome (Raised e) cs' ([LPrompt; LStarting (target_of typed); LTime] ++ ls).
Proof.
  intros H. unfold main.
  erewrite bind_done by reflexivity.
  erewrite bind_done by reflexivity.
  erewrite bind_done by reflexivity.
  erewrite bind_raised by exact H.
  reflexivity.
Qed.

(** a page request that fails with anything but an SSLError stops the
    audit inside the TLS check *)
Lemma tls_check_lets_failures_through P typed p e :
  urlparse P (target_of typed) = inr p -> scheme p = txt "https" ->
  net P [] (page_request (target_of typed)) = inl e ->
  is_ssl_error e = false ->
  main P typed []
  = Outcome (Raised e) [page_request (target_of typed)]
      ([LPrompt; LStarting (target_of typed); LTime]
       ++ banner_lines TitleTls ++ [LHttpsOk]).
Proof.
  intros Hp Hs Hn He. apply main_stops. unfold run_all_checks.
  erewrite bind_raised; [reflexivity|].
  now apply ssl_check_https_other_error with (p := p).
Qed.

(** ** The e-mail notes of a run *)

Lemma emails_of_quiet ls : Forall quiet ls -> emails_of ls = [].
Proof. intros H. apply flat_map_none. now apply Forall_forall. Qed.

Lemma emails_of_app ls1 ls2 :
  emails_of (ls1 ++ ls2) = emails_of ls1 ++ emails_of ls2.
Proof. apply flat_map_app. Qed.

Lemma emails_after_quiet ls1 ls2 :
  Forall quiet ls1 -> emails_of (ls1 ++ ls2) = emails_of ls2.
Proof. intros H. now rewrite emails_of_app, (emails_of_quiet _ H). Qed.

Lemma emails_before_quiet ls1 ls2 :
  Forall quiet ls2 -> emails_of (ls1 ++ ls2) = emails_of ls1.
Proof.
  intros H. now rewrite emails_of_app, (emails_of_quiet _ H), app_nil_r.
Qed.

Lemma plain_quiet {A} (m : M A) : emits line_plain m -> emits quiet m.
Proof. apply emits_weaken. now intros l [_ H]. Qed.

Lemma stage_quiet html s l : s <> AtEmails -> stage_line html s l -> quiet l.
Proof.
  intros Hs H. unfold quiet.
  destruct s, l; cbn [stage_line] in H; try contradiction; try reflexivity;
    congruence.
Qed.

Lemma stages_quiet html s ls :
  s <> AtEmails -> Forall (stage_line html s) ls -> Forall quiet ls.
Proof.
  intros Hs. apply Forall_impl. intros l. now apply stage_quiet.
Qed.

Lemma emails_of_notes es : emails_of (map LEmail es) = es.
Proof. induction es; cbn; [reflexivity | now f_equal]. Qed.

Lemma firstn_In {A} (x : A) k (l : list A) : In x (firstn k l) -> In x l.
Proof.
  revert k. induction l as [|y l IH]; intros [|k] H; cbn in H;
    try contradiction.
  destruct H as [->|H]; [now left | right; eapply IH; exact H].
Qed.

Lemma NoDup_firstn {A} k (l : list A) : NoDup l -> NoDup (firstn k l).
Proof.
  revert k. induction l as [|x l IH]; intros k H; destruct k; cbn;
    try constructor.
  - inversion H; subst. intros Hin. apply firstn_In in Hin. contradiction.
  - inversion H; subst. now apply IH.
Qed.

Lemma notes_of_ok P page : set_iter_ok (set_iter P) -> notes_ok (notes_of P page).
Proof.
  intros Hok. unfold notes_of. destruct page as [r|];
    [|split; [constructor | cbn; lia]].
  destruct (scripts_parse P (text r)); [|split; [constructor | cbn; lia]].
  split; [apply NoDup_firstn, Hok | rewrite length_firstn; lia].
Qed.

Lemma set_iter_nil (f : list str -> list str) : set_iter_ok f -> f [] = [].
Proof.
  intros H. destruct (f []) as [|x xs] eqn:E; [reflexivity|].
  destruct (H []) as [_ Hin]. exfalso. apply (Hin x). rewrite E. now left.
Qed.

(** the e-mail notes among the lines of the e-mail step *)
Lemma emails_of_check_emails P html :
  set_iter_ok (set_iter P) ->
  emails_of (out (check_emails P html []))
  = firstn 5 (set_iter P (findall0 email_re html)).
Proof.
  intros Hok. rewrite check_emails_runs. cbn [out]. cbv zeta.
  destruct (findall0 email_re html) as [|e es] eqn:E.
  - now rewrite (set_iter_nil _ Hok).
  - cbn [nonempty].
    change (emails_of (?h :: ?t)) with (emails_of t).
    apply emails_of_notes.
Qed.

Lemma secret_lines_stage html :
  Forall (stage_line html AtSecrets) (secret_lines html).
Proof.
  pose proof (emits_secrets html []) as Hc.
  now rewrite check_secrets_runs in Hc.
Qed.

(** the e-mail notes of the analysis of a response *)
Lemma emails_of_html P response cs :
  set_iter_ok (set_iter P) ->
  emails_of (out (analyze_html_content P response cs))
  = notes_of P (match response with
                | Some r => if ok r then Some r else None
                | None => None
                end).
Proof.
  intros Hok. destruct response as [r|]; [|reflexivity].
  destruct (ok r) eqn:Er.
  2:{ unfold analyze_html_content. rewrite Er. reflexivity. }
  unfold notes_of. destruct (scripts_parse P (text r)) eqn:Hp.
  - rewrite (analyze_html_content_runs P r cs Er Hp). cbn [out].
    rewrite (analyze_html_lines _ _ Hp).
    rewrite emails_after_quiet by (repeat constructor).
    rewrite emails_after_quiet
      by (apply stages_quiet with (html := text r) (s := AtComments);
          [discriminate | apply comment_lines_stage]).
    rewrite emails_after_quiet
      by (apply stages_quiet with (html := text r) (s := AtInline);
          [discriminate | apply emits_inline]).
    rewrite emails_after_quiet
      by (apply stages_quiet with (html := text r) (s := AtExternal);
          [discriminate | apply emits_external]).
    rewrite emails_after_quiet
      by (apply stages_quiet with (html := text r) (s := AtForms);
          [discriminate | apply emits_forms]).
    rewrite emails_before_quiet
      by (apply stages_quiet with (html := text r) (s := AtSecrets);
          [discriminate | apply secret_lines_stage]).
    now apply emails_of_check_emails.
  - destruct (analyze_html_content_stops P r cs Er Hp) as (e & ls & -> & Hl).
    cbn [out]. apply emails_of_quiet.
    apply Forall_app. split; [repeat constructor|].
    apply Forall_app. split.
    { apply stages_quiet with (html := text r) (s := AtComments);
        [discriminate | apply comment_lines_stage]. }
    apply Forall_app. split.
    { apply stages_quiet with (html := text r) (s := AtInline);
        [discriminate | apply emits_inline]. }
    apply stages_quiet with (html := text r) (s := AtExternal);
      [discriminate | exact Hl].
Qed.

(** the e-mail notes of the six checks: the first five addresses of the
    page that the analysis reads, when the run gets to them *)
Lemma emails_of_checks P url :
  set_iter_ok (set_iter P) ->
  emails_of (out (run_all_checks P url [])) = notes_of P (page_of P url).
Proof.
  intros Hok. unfold page_of, response_of, run_all_checks, bind.
  pose proof (plain_quiet _ (emits_plain_ssl P url) []) as Q1.
  destruct (check_ssl_tls P url []) as [[[]|e] cs1 ls1] eqn:E1;
    cbn [res calls out] in *; [|now apply emails_of_quiet].
  pose proof (plain_quiet _ (emits_plain_headers P url) cs1) as Q2.
  destruct (check_security_headers P url cs1) as [[response|e] cs2 ls2] eqn:E2;
    cbn [res calls out] in *.
  2:{ apply emails_of_quiet, Forall_app. now split. }
  pose proof (plain_quiet _ (emits_plain_files P url) cs2) as Q3.
  destruct (check_common_files P url cs2) as [[[]|e] cs3 ls3] eqn:E3;
    cbn [res calls out] in *.
  2:{ apply emails_of_quiet. repeat (apply Forall_app; split); assumption. }
  rewrite !emails_after_quiet by assumption.
  pose proof (emails_of_html P response cs3 Hok) as N.
  destruct (analyze_html_content P response cs3) as [[[]|e] cs4 ls4] eqn:E4;
    cbn [res calls out] in *; [|exact N].
  pose proof (plain_quiet _ (emits_plain_disclosure P response) cs4) as Q5.
  destruct (check_information_disclosure P response cs4)
    as [[[]|e] cs5 ls5] eqn:E5; cbn [res calls out] in *.
  - pose proof (plain_quiet _ (emits_plain_recommendations url) cs5) as Q6.
    rewrite emails_before_quiet; [exact N|]. apply Forall_app. now split.
  - rewrite emails_before_quiet by exact Q5. exact N.
Qed.

Lemma emails_of_main P typed :
  set_iter_ok (set_iter P) ->
  emails_of (out (run (main P typed)))
  = notes_of P (page_of P (target_of typed)).
Proof.
  intros Hok. pose proof (emails_of_checks P (target_of typed) Hok) as N.
  unfold run.
  destruct (run_all_checks P (target_of typed) []) as [[[]|e] cs' ls] eqn:E;
    cbn [out] in N.
  - rewrite (main_runs P typed [] cs' ls E). cbn [out].
    rewrite emails_after_quiet by (repeat constructor).
    rewrite emails_before_quiet by (repeat constructor). exact N.
  - rewrite (main_stops P typed [] cs' ls e E). cbn [out].
    rewrite emails_after_quiet by (repeat constructor). exact N.
Qed.

(** C9, as amended.  Two runs on the same target against the same network,
    [urlparse] and [urljoin], under any two iteration orders a [set] may
    have, end with the same result, issue the same requests, read the same
    page and print the same lines apart from the e-mail notes and the set
    of version numbers.  In each run the e-mail notes are exactly the
    first five addresses of the page the analysis reads, in the order the
    set of its addresses is iterated in that run (none when the run does
    not analyse a page, or stops before the e-mail step): at most five,
    all distinct. *)
Theorem C9_reproducible_up_to_set_order
    (n : list Request -> Request -> exn + Response)
    (up : str -> exn + ParseResult) (uj : str -> str -> exn + str)
    (order1 order2 : list str -> list str) (typed : str) :
  set_iter_ok order1 -> set_iter_ok order2 ->
  let P1 := Build_Platform n up uj order1 in
  let P2 := Build_Platform n up uj order2 in
  let o1 := run (main P1 typed) in
  let o2 := run (main P2 typed) in
  let page := page_of P1 (target_of typed) in
  res o1 = res o2 /\ calls o1 = calls o2 /\
  filter order_free (out o1) = filter order_free (out o2) /\
  page_of P2 (target_of typed) = page /\
  emails_of (out o1) = notes_of P1 page /\
  emails_of (out o2) = notes_of P2 page /\
  (forall r, page = Some r -> scripts_parse P1 (text r) = true ->
     emails_of (out o1) = firstn 5 (order1 (findall0 email_re (text r))) /\
     emails_of (out o2) = firstn 5 (order2 (findall0 email_re (text r)))) /\
  notes_ok (emails_of (out o1)) /\ notes_ok (emails_of (out o2)).
Proof.
  intros H1 H2 P1 P2 o1 o2 page.
  destruct (agree_main n up uj order1 order2 H1 H2 typed []) as (Hr & Hc & Ho).
  assert (N1 : emails_of (out o1) = notes_of P1 page)
    by (apply emails_of_main; exact H1).
  assert (N2 : emails_of (out o2) = notes_of P2 page)
    by (apply (emails_of_main P2 typed); exact H2).
  split; [exact Hr|]. split; [exact Hc|]. split; [exact Ho|].
  split; [reflexivity|]. split; [exact N1|]. split; [exact N2|]. split.
  - intros r Hpage Hp. rewrite N1, N2, Hpage. unfold notes_of.
    change (scripts_parse P2 (text r)) with (scripts_parse P1 (text r)).
    rewrite Hp. split; reflexivity.
  - rewrite N1, N2. split; apply notes_of_ok; assumption.
Qed.

Section Scenario.

Variable P : Platform.
Variable r : Response.
Variable p : ParseResult.

Let target := txt "https://example.test".
Let body := txt "<form><input name=" ++ dq "x" ++ txt "></form>".

Hypothesis target_parses : urlparse P target = inr p.
Hypothesis https : scheme p = txt "https".
Hypothesis page : forall cs, net P cs (page_request target) = inr r.
Hypothesis page_headers : headers r = [(txt "Content-Type", txt "text/html")].
Hypothesis page_text : text r = body.
Hypothesis page_ok : ok r = true.
Hypothesis not_found_all :
  forall file, In file common_files -> exists url,
    urljoin P target file = inr url /\
    forall cs, exists r',
      net P cs (probe_request url) = inr r' /\ status_code r' = 404.

Lemma scenario_joins : join_error P target common_files = None.
Proof.
  apply joins_all. intros file Hin.
  destruct (not_found_all file Hin) as (url & Hu & _). now exists url.
Qed.

Lemma scenario_no_exposure cs :
  exposed_files P cs (probes P target common_files) = [].
Proof.
  apply exposed_files_none. intros cs' fu Hin.
  apply probes_joined in Hin as [Hin Hj].
  destruct (not_found_all _ Hin) as (url & Hu & Hn).
  rewrite Hj in Hu. inversion Hu; subst url.
  unfold returns_200. destruct (Hn cs') as (r' & -> & ->). reflexivity.
Qed.

Lemma scenario_scripts_parse : scripts_parse P (text r) = true.
Proof. rewrite page_text. reflexivity. Qed.

Lemma scenario_checks :
  exists cs',
  run_all_checks P target []
  = Outcome (Done tt) cs'
      ((banner_lines TitleTls ++ [LHttpsOk; LCertValid])
       ++ (banner_lines TitleHeaders
           ++ LMissingHeading
              :: map (fun hd => LMissing (fst hd) (snd hd)) security_headers)
       ++ (banner_lines TitleFiles ++ [LNoneExposed; LSummary 21 21])
       ++ (banner_lines TitleHtml
           ++ [LInlineScripts 0; LFormsFound 1; LFormNoCsrf 1])
       ++ banner_lines TitleDisclosure
       ++ (banner_lines TitleRecommend ++ map LRecommendation recommendations)).
Proof.
  assert (Hfiles : forall cs,
            check_common_files P target cs
            = Outcome (Done tt)
                (cs ++ probe_requests (probes P target common_files))
                (banner_lines TitleFiles ++ [LNoneExposed; LSummary 21 21])).
  { intros cs. unfold check_common_files. rewrite check_files_runs.
    rewrite scenario_joins, scenario_no_exposure. reflexivity. }
  eexists. unfold run_all_checks.
  erewrite bind_done
    by (eapply ssl_check_https_ok; [exact target_parses | exact https | apply page]).
  erewrite bind_done by (apply check_security_headers_runs; apply page).
  erewrite bind_done by apply Hfiles.
  erewrite bind_done by
    (apply analyze_html_content_runs; [exact page_ok | exact scenario_scripts_parse]).
  erewrite bind_done by (apply check_information_disclosure_runs; exact page_ok).
  rewrite generate_recommendations_runs. cbn [res calls out].
  f_equal. rewrite page_headers.
  unfold disclose. rewrite page_headers, page_text.
  vm_compute. reflexivity.
Qed.

End Scenario.

(** C3, as amended.  For the target https://example.test, when the page
    request answers with a truthy response that carries only a
    Content-Type header and the body with one form and one input, and
    every file probe answers 404, the audit ends normally and reports
    exactly seven HeaderMissing findings, one NoCsrfToken finding, no
    ExposedFile finding and no WeakTls finding; the fixed path list has 21
    entries and the summary counts 21 files checked and none exposed. *)
Theorem C3_end_to_end (P : Platform) (r : Response) (p : ParseResult) :
  let target := txt "https://example.test" in
  urlparse P target = inr p ->
  scheme p = txt "https" ->
  (forall cs, net P cs (page_request target) = inr r) ->
  headers r = [(txt "Content-Type", txt "text/html")] ->
  text r = txt "<form><input name=" ++ dq "x" ++ txt "></form>" ->
  ok r = true ->
  (forall file, In file common_files -> exists url,
      urljoin P target file = inr url /\
      forall cs, exists r',
        net P cs (probe_request url) = inr r' /\ status_code r' = 404) ->
  let o := run (main P target) in
  res o = Done tt /\
  count_category HeaderMissing (out o) = 7 /\
  count_category NoCsrfToken (out o) = 1 /\
  count_category ExposedFile (out o) = 0 /\
  count_category WeakTls (out o) = 0 /\
  length common_files = 21 /\
  summaries (out o) = [(21, 0)].
Proof.
  intros target Hp Hs Hpage Hh Ht Hok Hprobes o.
  destruct (scenario_checks P r p Hp Hs Hpage Hh Ht Hok Hprobes) as [cs' H].
  subst o. unfold run.
  rewrite (main_runs P target [] cs' _ H). cbn [res out].
  repeat split; vm_compute; reflexivity.
Qed.

(** ** Iteration orders of a set *)

Lemma first_seen_in xs : forall x, In x (first_seen xs) <-> In x xs.
Proof.
  induction xs as [|y xs IH]; intros x; [reflexivity|].
  cbn [first_seen In]. rewrite filter_In, IH. split.
  - intros [H|[H _]]; auto.
  - intros [H|H]; [now left|].
    destruct (eqs y x) eqn:E.
    + left. now apply eqs_eq.
    + right. split; [exact H | reflexivity].
Qed.

Lemma first_seen_nodup xs : NoDup (first_seen xs).
Proof.
  induction xs as [|y xs IH]; cbn [first_seen]; constructor.
  - rewrite filter_In. intros [_ H]. now rewrite eqs_refl in H.
  - now apply NoDup_filter.
Qed.

Lemma first_seen_ok : set_iter_ok first_seen.
Proof. intros xs. split; [apply first_seen_nodup | apply first_seen_in]. Qed.

Lemma last_seen_first_ok : set_iter_ok last_seen_first.
Proof.
  intros xs. unfold last_seen_first. split.
  - apply NoDup_rev, first_seen_nodup.
  - intros x. rewrite <- in_rev. apply first_seen_in.
Qed.

End General.

(** ** Concrete runs *)

(** The runs below are on pages written in ASCII, for which the Unicode
    database has nothing to add. *)
#[local] Existing Instance latin_only.

Ltac pick := vm_compute; repeat (first [left; reflexivity | right]).

(** C2: with a page request that times out (or is refused), the audit
    stops in the TLS check, although the header check that follows would
    have turned the same failure into a line of the report *)
Theorem C2_probe_failure_aborts_audit :
  let o := run (main (failing read_timeout) example_test) in
  res o = Raised read_timeout /\
  calls o = [page_request example_test] /\
  out o = [LPrompt; LStarting example_test; LTime]
          ++ banner_lines TitleTls ++ [LHttpsOk] /\
  res (run (main (failing refused) example_test)) = Raised refused /\
  res (run (check_security_headers (failing read_timeout) example_test))
  = Done None.
Proof. vm_compute. repeat split. Qed.

(** the scenario of C3 on a concrete site: the summary does not count 20
    files, the list does not have 20 entries *)
Lemma C3_counterexample :
  summaries (out (run (main (serving form_body) example_test))) <> [(20, 0)] /\
  length common_files <> 20.
Proof. split; vm_compute; discriminate. Qed.

(** C3 applies to that site *)
Lemma C3_witness :
  summaries (out (run (main (serving form_body) example_test))) = [(21, 0)].
Proof.
  apply (C3_end_to_end (serving form_body) (plain_page form_body)
           (Build_ParseResult (txt "https") (txt "example.test"))).
  - reflexivity.
  - reflexivity.
  - intros cs. reflexivity.
  - reflexivity.
  - reflexivity.
  - reflexivity.
  - intros file _. eexists. split; [reflexivity|].
    intros cs. eexists. split; reflexivity.
Defined.

(** a token of exactly twenty characters is shown whole; and a secret on
    a page whose script address [urlparse] rejects is not reported at all,
    the analysis having ended with a ValueError before the scan *)
Lemma C4_counterexample :
  let o := analyze_html_content (serving token20_body)
             (Some (plain_page token20_body)) [] in
  let o' := analyze_html_content (serving bad_script_body)
              (Some (plain_page bad_script_body)) [] in
  findall2 secret_re token20_body = [(txt "token", txt "abcdefghijklmnopqrst")] /\
  of_category ExposedSecret (findings (out o))
  = [Build_Finding ExposedSecret Critical (txt "token: abcdefghijklmnopqrst")] /\
  contains (txt "abcdefghijklmnopqrst") (txt "token: abcdefghijklmnopqrst") = true /\
  findall2 secret_re bad_script_body
  = [(txt "token", txt "abcdefghijklmnopqrstuvwxyz")] /\
  res o' = Raised (Exn ValueError (txt "Invalid IPv6 URL")) /\
  of_category ExposedSecret (findings (out o')) = [].
Proof. vm_compute. repeat split. Qed.

(** C4 applies to the page with the token of 26 letters *)
Lemma C4_witness :
  of_category ExposedSecret
    (findings (out (analyze_html_content (serving token26_body)
                      (Some (plain_page token26_body)) [])))
  = [Build_Finding ExposedSecret Critical (txt "token: abcdefghijklmnopqrst")].
Proof.
  destruct (C4_secret_evidence (serving token26_body) (plain_page token26_body)
              [] eq_refl) as (_ & _ & _ & H).
  destruct (H eq_refl) as [H1 _]. exact H1.
Defined.

(** a TLS failure message and a form action of 101 characters are
    reported in full *)
Lemma C5_counterexample :
  In (Build_Finding WeakTls Critical (chars 101 "x"))
     (findings (out (run (main (failing long_tls_failure) example_test)))) /\
  In (Build_Finding NoCsrfToken Warning long_action)
     (findings (out (run (main (serving long_action_body) example_test)))) /\
  length (chars 101 "x") = 101 /\ length long_action = 101.
Proof. split; [pick | split; [pick | split; reflexivity]]. Qed.

(** C5 applies to a finding of the end-to-end run *)
Lemma C5_witness :
  length (evidence (missing_finding (txt "X-Frame-Options"))) <= 100.
Proof.
  apply (C5_capped_evidence (serving form_body) example_test).
  - pick.
  - reflexivity.
Defined.

(** C6 applies to a response with a Content-Type header only *)
Lemma C6_witness :
  length (of_category HeaderMissing
            (findings (out (check_security_headers (serving form_body)
                              example_test [])))) = 7.
Proof.
  apply (C6_missing_headers (serving form_body) example_test []
           (plain_page form_body)).
  - reflexivity.
  - intros h Hh. cbn in Hh.
    repeat (destruct Hh as [<-|Hh]; [reflexivity|]). destruct Hh.
Defined.

(** a sixth comment that is the word password, and a comment whose
    keyword comes after a hundred other characters, give no finding *)
Lemma C7_counterexample :
  let found body :=
    of_category SensitiveComment
      (findings (out (analyze_html_content (serving body)
                        (Some (plain_page body)) []))) in
  nth_error (findall1 comment_re six_comments_body) 5 = Some (txt "password") /\
  found six_comments_body = [] /\
  findall1 comment_re late_keyword_body = [chars 100 "x" ++ txt "password"] /\
  found late_keyword_body = [].
Proof. vm_compute. repeat split. Qed.

(** C7 applies to the page with the leaked key comment *)
Lemma C7_witness :
  of_category SensitiveComment
    (findings (out (analyze_html_content (serving (txt "<!-- api_key leaked -->"))
                      (Some (plain_page (txt "<!-- api_key leaked -->"))) [])))
  = [comment_finding (txt "api_key leaked")].
Proof.
  apply (C7_sensitive_comments (serving (txt "<!-- api_key leaked -->"))
           (plain_page (txt "<!-- api_key leaked -->")) []).
  - reflexivity.
  - reflexivity.
Defined.

(** the finding for http://example.com is marked WARNING, not Critical *)
Lemma C8_counterexample :
  let fs := findings (out (run (check_ssl_tls (serving form_body) example_http))) in
  fs = [Build_Finding WeakTls Warning []] /\
  forall f, In f fs -> severity f <> Critical.
Proof.
  split; [vm_compute; reflexivity|].
  intros f Hf. vm_compute in Hf. destruct Hf as [<-|[]]. discriminate.
Qed.

(** C8 applies to http://example.com *)
Lemma C8_witness :
  calls (check_ssl_tls (serving form_body) example_http []) = [] /\
  findings (out (check_ssl_tls (serving form_body) example_http []))
  = [Build_Finding WeakTls Warning []].
Proof.
  destruct (C8_tls_posture (serving form_body) example_http []
              (Build_ParseResult (txt "http") (txt "example.com")))
    as (H & _ & _).
  - reflexivity.
  - destruct H as (_ & Hc & Hf); [reflexivity|]. split; [exact Hc | exact Hf].
Defined.

(** the same site under two valid set orders: the outputs differ, and the
    second run lists the addresses against their order of appearance *)
Lemma C9_counterexample :
  let o1 := run (main (serving two_emails_body) example_test) in
  let o2 := run (main (serving_reordered two_emails_body) example_test) in
  out o1 <> out o2 /\
  findall0 email_re two_emails_body = [txt "a@b.co"; txt "c@d.co"] /\
  emails_of (out o2) = [txt "c@d.co"; txt "a@b.co"] /\
  set_iter_ok first_seen /\ set_iter_ok last_seen_first.
Proof.
  split; [|split; [|split; [|split]]].
  - intros H. apply (f_equal emails_of) in H. vm_compute in H. discriminate.
  - vm_compute. reflexivity.
  - vm_compute. reflexivity.
  - exact first_seen_ok.
  - exact last_seen_first_ok.
Qed.

(** C9 applies to those two runs *)
Lemma C9_witness :
  filter order_free (out (run (main (serving two_emails_body) example_test)))
  = filter order_free
      (out (run (main (serving_reordered two_emails_body) example_test))).
Proof.
  apply (C9_reproducible_up_to_set_order
           (two_way_net (inr (plain_page two_emails_body)) not_found)
           simple_urlparse simple_urljoin first_seen last_seen_first
           example_test first_seen_ok last_seen_first_ok).
Defined.

(** a response with status 600 is truthy: its form and its headers are
    analysed and reported *)
Lemma C10_counterexample :
  let r := page_with_status 600 in
  let P := platform (inr r) not_found first_seen in
  400 <= status_code r /\ ok r = true /\
  of_category NoCsrfToken (findings (out (analyze_html_content P (Some r) [])))
  = [Build_Finding NoCsrfToken Warning []] /\
  length (findings (out (check_information_disclosure P (Some r) []))) = 2.
Proof. vm_compute. repeat split. lia. Qed.

(** C10 applies to the same page sent with status 404 *)
Lemma C10_witness :
  let r := page_with_status 404 in
  let P := platform (inr r) not_found first_seen in
  findings (out (analyze_html_content P (Some r) [])) = [] /\
  findings (out (check_information_disclosure P (Some r) [])) = [].
Proof.
  intros r P.
  pose proof (C10_error_status_skips_analysis P r []) as H.
  assert (H1 : 400 <= status_code r) by (simpl; lia).
  assert (H2 : status_code r < 600) by (simpl; lia).
  destruct (H H1 H2) as (_ & _ & _ & _ & Ha & _ & Hb).
  split; [exact Ha | exact Hb].
Defined.
